(** * import.py: the word-list filter of wordle-infinite

    A shallow embedding of [src/import.py] and the properties of its
    loader, its scan loop and its writer.

    Python values are modelled as follows.
    - [str] is a sequence of Unicode code points ([list N]); a character is
      a [str] of length one, as in Python.
    - [int] is [Z]; [float] is an IEEE-754 binary64 value ([spec_float] at
      precision 53, the standard library's specification of the format).
    - a decoded JSON document is a value of the inductive type [json];
      the dictionary [storage] is an insertion-ordered association list.
    - exceptions are the [Raise] results of an error monad; files and the
      console live in a [world] that the program threads through [M]. *)

From Stdlib Require Import ZArith NArith List Bool Lia.
From Stdlib Require Import Floats.SpecFloat.
From stdpp Require Import base list strings gmap.

Local Open Scope Z_scope.

(** ** Strings *)

Module Str.

Definition str := list N.

(** A literal of the source, all of which are ASCII. *)
Definition lit (s : string) : str :=
  Ascii.N_of_ascii <$> String.list_ascii_of_string s.

Definition LF : N := 10%N.
Definition TAB : N := 9%N.
Definition CR : N := 13%N.
Definition QUOTE : N := 34%N.
Definition BACKSLASH : N := 92%N.

(** [len(x)] *)
Definition len {A} (l : list A) : Z := Z.of_nat (length l).

(** The code points for which [str.isspace] holds on a single character
    (the interpreter's whitespace table); these are what [str.strip]
    without argument removes. *)
Definition isspace (c : N) : bool :=
  ((9 <=? c) && (c <=? 13) || (28 <=? c) && (c <=? 32)
   || (c =? 133) || (c =? 160) || (c =? 5760)
   || (8192 <=? c) && (c <=? 8202)
   || (c =? 8232) || (c =? 8233) || (c =? 8239) || (c =? 8287)
   || (c =? 12288))%N.

Fixpoint lstrip (s : str) : str :=
  match s with
  | [] => []
  | c :: rest => if isspace c then lstrip rest else s
  end.

Definition rstrip (s : str) : str := rev (lstrip (rev s)).

(** [s.strip()] *)
Definition strip (s : str) : str := rstrip (lstrip s).

(** [set(s)] for a string: the set of its characters. *)
Definition py_set (s : str) : gset N := list_to_set s.

(** Decimal digits of a natural number, as [str(n)] prints them. *)
Definition digit (d : N) : N := (48 + d)%N.

Fixpoint decimal_go (fuel : nat) (n : N) (acc : str) : str :=
  match fuel with
  | O => acc
  | S fuel' =>
      let acc' := digit (n mod 10) :: acc in
      if (n <? 10)%N then acc' else decimal_go fuel' (n / 10) acc'
  end.

Definition decimal (n : N) : str := decimal_go (S (N.to_nat (N.log2 n))) n [].

(** [str(z)] for an [int] *)
Definition str_of_int (z : Z) : str :=
  match z with
  | Z0 => decimal 0
  | Zpos p => decimal (Npos p)
  | Zneg p => 45%N :: decimal (Npos p)
  end.

(** Four lower-case hexadecimal digits: the format [{0:04x}]. *)
Definition hexdigit (d : N) : N := if (d <? 10)%N then (48 + d)%N else (87 + d)%N.

Definition hex4 (n : N) : str :=
  [hexdigit (N.shiftr n 12 mod 16); hexdigit (N.shiftr n 8 mod 16);
   hexdigit (N.shiftr n 4 mod 16); hexdigit (n mod 16)].

End Str.
Export Str.

(** ** Floating point: [int / int] and [int(float)] *)

Module Float.

Definition prec : Z := 53.
Definition emax : Z := 1024.

Definition float := spec_float.

(** The binary64 value nearest to an integer. *)
Definition of_int (z : Z) : float := binary_normalize prec emax z 0 false.

End Float.

(** ** Exceptions and results *)

Inductive exn :=
| OSError (path : str)
| JSONDecodeError
| TypeError
| KeyError (key : Z)
| ZeroDivisionError
| OverflowError
| ValueError.

Inductive result (A : Type) :=
| Ok (a : A)
| Raise (e : exn).
Arguments Ok {A} a.
Arguments Raise {A} e.

#[global] Instance result_ret : MRet result := λ A a, Ok a.
#[global] Instance result_bind : MBind result := λ A B k r,
  match r with
  | Ok a => k a
  | Raise e => Raise e
  end.

(** [a / b] on two [int]s: true division, a [float].  Both operands are
    converted exactly when they are below 2^53 in magnitude, which every
    length of a string is. *)
Definition py_truediv (a b : Z) : result Float.float :=
  if b =? 0 then Raise ZeroDivisionError
  else Ok (SFdiv Float.prec Float.emax (Float.of_int a) (Float.of_int b)).

(** [int(x)] on a [float]: truncation towards zero. *)
Definition py_int (x : Float.float) : result Z :=
  match x with
  | S754_zero _ => Ok 0
  | S754_infinity _ => Raise OverflowError
  | S754_nan => Raise ValueError
  | S754_finite s m e =>
      let a := match e with
               | Zneg k => Z.shiftr (Zpos m) (Zpos k)
               | _ => Z.shiftl (Zpos m) e
               end in
      Ok (if s then - a else a)
  end.

(** ** Decoded JSON documents *)

(** What [json.load] returns: [None], [bool], [int], [float], [str],
    [list] and [dict] (its keys in document order). *)
#[warnings="-register-all"]
Inductive json :=
| JNone
| JBool (b : bool)
| JInt (n : Z)
| JFloat (x : Float.float)
| JStr (s : str)
| JList (items : list json)
| JDict (entries : list (str * json)).

(** The decoder [json.load] of the interpreter's library is not part of
    the repository: the development is parametric in it.  [None] stands
    for the decoder's failure. *)
Class JSONDecoder := json_loads : str → option json.

(** [v == s] for a string [s]: only a [str] is equal to a [str]. *)
Definition py_eq_str (v : json) (s : str) : bool :=
  match v with
  | JStr t => bool_decide (t = s)
  | _ => false
  end.

(** [v in l] for a list [l] of strings. *)
Definition in_strs (v : json) (l : list str) : bool := existsb (py_eq_str v) l.

(** [s in l] for a string [s] and a list [l] of decoded values. *)
Definition str_in (s : str) (l : list json) : bool :=
  existsb (λ v, py_eq_str v s) l.

(** [for x in v]: the elements a decoded value yields when iterated. *)
Definition py_iter (v : json) : result (list json) :=
  match v with
  | JStr s => Ok ((λ c, JStr [c]) <$> s)
  | JList items => Ok items
  | JDict entries => Ok ((λ kv, JStr kv.1) <$> entries)
  | _ => Raise TypeError
  end.

(** [for c in s] for a string: its characters, each a string. *)
Definition chars (s : str) : list str := (λ c, [c]) <$> s.

(** [json.dump] with its defaults ([ensure_ascii], separators [", "]) on
    a list of strings.  A backslash in a literal below is the character
    itself: the escape of a line feed is a backslash and the letter n. *)
Definition json_escape_char (c : N) : str :=
  if (c =? QUOTE)%N then [BACKSLASH; QUOTE]
  else if (c =? BACKSLASH)%N then [BACKSLASH; BACKSLASH]
  else if (c =? 10)%N then lit "\n"
  else if (c =? 13)%N then lit "\r"
  else if (c =? 9)%N then lit "\t"
  else if (c =? 8)%N then lit "\b"
  else if (c =? 12)%N then lit "\f"
  else if ((32 <=? c) && (c <=? 126))%N then [c]
  else if (c <? 65536)%N then lit "\u" ++ hex4 c
  else
    let n := (c - 65536)%N in
    let s1 := N.lor 55296 (N.land (N.shiftr n 10) 1023) in
    let s2 := N.lor 56320 (N.land n 1023) in
    lit "\u" ++ hex4 s1 ++ lit "\u" ++ hex4 s2.

Definition json_encode_str (s : str) : str :=
  [QUOTE] ++ concat (json_escape_char <$> s) ++ [QUOTE].

Fixpoint join (sep : str) (parts : list str) : str :=
  match parts with
  | [] => []
  | [p] => p
  | p :: rest => p ++ sep ++ join sep rest
  end.

Definition json_dumps (words : list str) : str :=
  lit "[" ++ join (lit ", ") (json_encode_str <$> words) ++ lit "]".

(** ** The dictionary [storage] *)

(** A [dict] from [int] to lists of strings, in insertion order. *)
Definition dict := list (Z * list str).

(** [d[k]] *)
Fixpoint dict_get (d : dict) (k : Z) : result (list str) :=
  match d with
  | [] => Raise (KeyError k)
  | (k', v) :: rest => if k' =? k then Ok v else dict_get rest k
  end.

(** [d[k].append(x)]: the list stored under [k] grows in place. *)
Fixpoint dict_append (d : dict) (k : Z) (x : str) : result dict :=
  match d with
  | [] => Raise (KeyError k)
  | (k', v) :: rest =>
      if k' =? k then Ok ((k', v ++ [x]) :: rest)
      else rest' ← dict_append rest k x; Ok ((k', v) :: rest')
  end.

(** [for k in d] *)
Definition dict_keys (d : dict) : list Z := fst <$> d.

(** ** The world: files and the console *)

Inductive event :=
| Print (text : str)
| Truncate (path : str)
| Write (path : str) (data : str).

(** [files] holds the text of every file that can be opened for reading,
    [denied] the paths that cannot be opened for writing, and [trace] what
    the run has printed and written so far, oldest first. *)
Record world := World {
  files : gmap str str;
  denied : gset str;
  trace : list event
}.

(** The lines printed on the console, oldest first. *)
Definition console (t : list event) : list str :=
  omap (λ e, match e with Print s => Some s | _ => None end) t.

(** The paths written to, oldest first. *)
Definition written (t : list event) : list str :=
  omap (λ e, match e with Write p _ => Some p | _ => None end) t.

Definition M (A : Type) : Type := world → result A * world.

#[global] Instance M_ret : MRet M := λ A a w, (Ok a, w).
#[global] Instance M_bind : MBind M := λ A B k m w,
  match m w with
  | (Ok a, w') => k a w'
  | (Raise e, w') => (Raise e, w')
  end.

Definition lift {A} (r : result A) : M A := λ w, (r, w).

(** What an event does to the world: it is recorded in the trace, and
    opening a file for writing creates or empties it, while writing
    appends to it. *)
Definition apply_event (w : world) (e : event) : world :=
  let files' :=
    match e with
    | Print _ => files w
    | Truncate path => <[path := []]> (files w)
    | Write path data => alter (λ old, old ++ data) path (files w)
    end in
  World files' (denied w) (trace w ++ [e]).

Definition perform (e : event) : M unit := λ w, (Ok (), apply_event w e).

(** [print(s)] *)
Definition print (s : str) : M unit := perform (Print s).

(** [open(path, "rt")] and reading the file: its text. *)
Definition open_read (path : str) : M str := λ w,
  match files w !! path with
  | Some text => (Ok text, w)
  | None => (Raise (OSError path), w)
  end.

(** [open(path, "wt", encoding="utf-8")]: the file is created or emptied. *)
Definition open_write (path : str) : M unit := λ w,
  if bool_decide (path ∈ denied w) then (Raise (OSError path), w)
  else perform (Truncate path) w.

(** [outfile.write(data)] *)
Definition write (path data : str) : M unit := perform (Write path data).

(** [json.load(infile)] *)
Definition json_load `{JSONDecoder} (text : str) : M json :=
  match json_loads text with
  | Some v => mret v
  | None => lift (Raise JSONDecodeError)
  end.

(** [json.dump(words, outfile)] *)
Definition json_dump (words : list str) (path : str) : M unit :=
  write path (json_dumps words).

(** Text mode with universal newlines: a carriage return, alone or before
    a line feed, reads as one line feed. *)
Fixpoint universal_newlines (s : str) : str :=
  match s with
  | [] => []
  | c :: rest =>
      if (c =? CR)%N then
        LF :: match rest with
              | c' :: rest' =>
                  if (c' =? LF)%N then universal_newlines rest'
                  else universal_newlines rest
              | [] => []
              end
      else c :: universal_newlines rest
  end.

Fixpoint split_lines (s : str) : list str :=
  match s with
  | [] => []
  | c :: rest =>
      if (c =? LF)%N then [c] :: split_lines rest
      else match split_lines rest with
           | [] => [[c]]
           | l :: ls => (c :: l) :: ls
           end
  end.

(** [for line in infile]: the lines of the text, each with its line feed. *)
Definition readlines (text : str) : list str := split_lines (universal_newlines text).

(** A [for] loop whose body updates the local variables [S]. *)
Fixpoint for_each {A S} (xs : list A) (body : A → S → M S) (s : S) : M S :=
  match xs with
  | [] => mret s
  | x :: rest => s' ← body x s; for_each rest body s'
  end.

(** ** The program *)

(** The local variables of [main] that outlive a statement. *)
Record locals := Locals {
  storage : dict;
  valid_chars : list json
}.

Definition storage0 : dict := [(4, []); (5, []); (6, []); (7, []); (8, [])].

(** [[item for sublist in doc for item in sublist if item not in ["\n", "\t"]]] *)
Definition load_valid_chars (doc : json) : result (list json) :=
  sublists ← py_iter doc;
  rows ← mapM py_iter sublists;
  Ok (List.filter (λ item, negb (in_strs item [[LF]; [TAB]])) (concat rows)).

(** The diagnostics: [f"Skipping {line} for invalid chars"] and
    [f"Skipping {line} for not enough unique letters"]. *)
Definition invalid_chars_msg (line : str) : str :=
  lit "Skipping " ++ line ++ lit " for invalid chars".

Definition not_unique_msg (line : str) : str :=
  lit "Skipping " ++ line ++ lit " for not enough unique letters".

(** The body of the scan loop, lines 22 to 35. *)
Definition scan_line (line : str) (l : locals) : M locals :=
  let line := strip line in
  if (len line <? 4) || (len line >? 8) then mret l
  else if negb (forallb (λ char, str_in char (valid_chars l)) (chars line)) then
    _ ← print (invalid_chars_msg line); mret l
  else
    half ← lift (py_truediv (len line) 2 ≫= py_int);
    if Z.of_nat (size (py_set line)) <=? half then
      _ ← print (not_unique_msg line); mret l
    else
      storage' ← lift (dict_append (storage l) (len line) line);
      mret (Locals storage' (valid_chars l)).

(** Lines 20 to 35: the scan of the word list. *)
Definition scan (path : str) (l : locals) : M locals :=
  infile ← open_read path;
  for_each (readlines infile) scan_line l.

(** The output file of a bucket: [f"{language}/length{length}.json"]. *)
Definition out_path (language : str) (length : Z) : str :=
  language ++ lit "/length" ++ str_of_int length ++ lit ".json".

(** The summary line: [f"Writing {n} words of length {length}."]. *)
Definition summary (n length : Z) : str :=
  lit "Writing " ++ str_of_int n ++ lit " words of length " ++ str_of_int length ++ lit ".".

(** The body of the writer loop, lines 38 to 40. *)
Definition write_bucket (language : str) (length : Z) (l : locals) : M locals :=
  let path := out_path language length in
  _ ← open_write path;
  words ← lift (dict_get (storage l) length);
  _ ← print (summary (len words) length);
  words ← lift (dict_get (storage l) length);
  _ ← json_dump words path;
  mret l.

(** Lines 37 to 40: one file per key of [storage], in the order of its keys. *)
Definition writer (language : str) (l : locals) : M locals :=
  for_each (dict_keys (storage l)) (write_bucket language) l.

(** Lines 17 and 18: the layout file, decoded and flattened. *)
Definition layout_path (language keyboard : str) : str :=
  language ++ lit "/" ++ keyboard ++ lit ".json".

Definition loader `{JSONDecoder} (language keyboard : str) : M (list json) :=
  infile ← open_read (layout_path language keyboard);
  doc ← json_load infile;
  lift (load_valid_chars doc).

Definition main `{JSONDecoder} (language keyboard path : str) : M unit :=
  let storage := storage0 in
  valid_chars ← loader language keyboard;
  l ← scan path (Locals storage valid_chars);
  _ ← writer language l;
  mret ().

(** The exit status of the process: an uncaught exception ends it with 1. *)
Definition exit_status {A} (r : result A) : Z :=
  match r with
  | Ok _ => 0
  | Raise _ => 1
  end.

(** * Specification-side definitions

    What the specification says in its own words, to be compared with the
    program above. *)

(** The count of distinct characters of a word. *)
Definition distinct (w : str) : Z := len (remove_dups w).

#[global] Instance json_eq_str_dec (v : json) (s : str) : Decision (v = JStr s).
Proof.
  refine (match v with
          | JStr t => cast_if (decide (t = s))
          | _ => right _
          end); congruence.
Defined.

#[global] Instance str_elem_dec (s : str) (vc : list json) : Decision (JStr s ∈ vc).
Proof.
  induction vc as [|v vc IH].
  - right. apply not_elem_of_nil.
  - destruct (decide (v = JStr s)) as [Heq|Hne].
    + left. rewrite Heq. apply list_elem_of_here.
    + destruct IH as [Hin|Hnin].
      * left. by apply list_elem_of_further.
      * right. intros Hin. apply elem_of_cons in Hin as [Heq|Hin]; [by apply Hne | by apply Hnin].
Defined.

(** Every character of the word is a member of the valid-character set. *)
Definition typeable (vc : list json) (w : str) : Prop := Forall (λ c, JStr [c] ∈ vc) w.

#[global] Instance typeable_dec vc w : Decision (typeable vc w).
Proof. unfold typeable. apply _. Defined.

(** A word belongs in bucket [N]: it has length [N], all its characters
    are valid, and it has strictly more than floor(N/2) distinct
    characters. *)
Definition qualifies (vc : list json) (N : Z) (w : str) : Prop :=
  len w = N ∧ typeable vc w ∧ N / 2 < distinct w.

#[global] Instance qualifies_dec vc N w : Decision (qualifies vc N w).
Proof. unfold qualifies. apply _. Defined.

(** The trimmed input lines that belong in bucket [N], in input order,
    once per occurrence. *)
Definition spec_bucket (vc : list json) (N : Z) (lines : list str) : list str :=
  filter (qualifies vc N) (strip <$> lines).

(** The invariant of the bucket map (section 3 of the specification). *)
Definition bucket_inv (vc : list json) (d : dict) : Prop :=
  ∀ k ws w, (k, ws) ∈ d → w ∈ ws →
    4 ≤ len w ≤ 8 ∧ typeable vc w ∧ len w / 2 < distinct w ∧ k = len w.

(** The least count of distinct characters a word of each length needs
    (step 4 of section 4.2). *)
Definition min_unique (L : Z) : Z :=
  match L with
  | 4 => 3
  | 5 => 3
  | 6 => 4
  | 7 => 4
  | 8 => 5
  | _ => 0
  end.

(** What the scan of one line prints (steps 2 to 4 of section 4.2). *)
Definition diagnostic (vc : list json) (line : str) : list str :=
  let w := strip line in
  if decide (len w < 4 ∨ 8 < len w) then []
  else if decide (typeable vc w) then
    if decide (distinct w ≤ len w / 2) then [not_unique_msg w] else []
  else [invalid_chars_msg w].

(** ** The run in closed form

    Functions of the inputs that the properties below prove equal to the
    results of the program. *)

(** The world after a sequence of events. *)
Definition apply_events (es : list event) (w : world) : world := foldl apply_event w es.

(** The bucket map after a scan of [lines] that started from [d]. *)
Definition grow (vc : list json) (d : dict) (lines : list str) : dict :=
  (λ kv, (kv.1, kv.2 ++ spec_bucket vc kv.1 lines)) <$> d.

(** What the writer does for one bucket: the file is opened, the summary
    line printed, the words written. *)
Definition bucket_events (language : str) (entry : Z * list str) : list event :=
  let path := out_path language entry.1 in
  [Truncate path; Print (summary (len entry.2) entry.1); Write path (json_dumps entry.2)].

(** The writer as a function of the buckets and of the lengths whose file
    cannot be opened: it stops at the first such length. *)
Fixpoint writer_outcome (language : str) (deny : Z → bool) (entries : dict)
  : result unit * list event :=
  match entries with
  | [] => (Ok (), [])
  | entry :: rest =>
      if deny entry.1 then (Raise (OSError (out_path language entry.1)), [])
      else let '(r, es) := writer_outcome language deny rest in
           (r, bucket_events language entry ++ es)
  end.

(** Whether the output file of length [k] cannot be opened. *)
Definition denies (language : str) (w : world) (k : Z) : bool :=
  bool_decide (out_path language k ∈ denied w).

(** The loader as a function of the layout file. *)
Definition decode_layout `{JSONDecoder} (path : str) (file : option str) : result (list json) :=
  match file with
  | None => Raise (OSError path)
  | Some text =>
      match json_loads text with
      | None => Raise JSONDecodeError
      | Some doc => load_valid_chars doc
      end
  end.

(** The whole run as a function of what it reads: the two input files and
    which output files can be opened. *)
Definition main_outcome `{JSONDecoder} (language keyboard path : str)
    (layout words : option str) (deny : Z → bool) : result unit * list event :=
  match decode_layout (layout_path language keyboard) layout with
  | Raise e => (Raise e, [])
  | Ok vc =>
      match words with
      | None => (Raise (OSError path), [])
      | Some text =>
          let lines := readlines text in
          let '(r, es) := writer_outcome language deny (grow vc storage0 lines) in
          (r, (Print <$> (lines ≫= diagnostic vc)) ++ es)
      end
  end.

(** ** Auxiliary predicates *)

(** A decoded value that a [for] loop can iterate: a string, a list or a
    dictionary. *)
Definition iterable (v : json) : Prop :=
  match v with
  | JStr _ | JList _ | JDict _ => True
  | _ => False
  end.

#[global] Instance iterable_dec v : Decision (iterable v).
Proof. destruct v; cbn; apply _. Defined.

(** A printable ASCII character. *)
Definition printable (c : N) : Prop := (32 ≤ c ≤ 126)%N.

(** ** A sample run

    The valid characters a, b, c, d, e, r of the specification's example
    scenarios, their layout file and a word list. *)
Module Sample.

(** The text [[["a","b","c","\n"],["d","e","r","\t"]]] of the layout file. *)
Definition layout_text : str :=
  [91; 91; 34; 97; 34; 44; 34; 98; 34; 44; 34; 99; 34; 44; 34; 92; 110; 34; 93; 44;
   91; 34; 100; 34; 44; 34; 101; 34; 44; 34; 114; 34; 44; 34; 92; 116; 34; 93; 93]%N.

Definition layout : json :=
  JList [JList [JStr (lit "a"); JStr (lit "b"); JStr (lit "c"); JStr [LF]];
         JList [JStr (lit "d"); JStr (lit "e"); JStr (lit "r"); JStr [TAB]]].

(** The decoder on the sample layout file; other texts are not used. *)
Definition decoder : JSONDecoder :=
  λ text, if bool_decide (text = layout_text) then Some layout else None.

Definition vc : list json := JStr <$> chars (lit "abcder").

Definition lines : list str :=
  [lit "cabbed" ++ [LF]; lit "abba" ++ [LF]; lit "caved" ++ [LF]; lit "hi" ++ [LF];
   lit "  deadbeer " ++ [LF]; lit "cabbed"].

Definition words_text : str := concat lines.

Definition w0 : world :=
  World (<[lit "en/qwerty.json" := layout_text]> (<[lit "words.txt" := words_text]> ∅)) ∅ [].

End Sample.

(** * Properties *)

(** The five admissible lengths, one goal for each. *)
Ltac length_cases N :=
  let H := fresh "Hcase" in
  assert (N = 4 ∨ N = 5 ∨ N = 6 ∨ N = 7 ∨ N = 8) as H by lia;
  destruct H as [-> | [-> | [-> | [-> | ->]]]].

Example truediv_5_2 :
  py_truediv 5 2 = Ok (S754_finite false 5629499534213120 (-51)).
Proof. reflexivity. Qed.

Example int_truediv_7_2 : py_truediv 7 2 ≫= py_int = Ok 3.
Proof. reflexivity. Qed.

Example str_of_int_ex :
  str_of_int 1204 = lit "1204" ∧ str_of_int 0 = lit "0" ∧ str_of_int (-37) = lit "-37".
Proof. repeat split; reflexivity. Qed.

Example strip_ex : strip (lit "  cab bed " ++ [CR; LF]) = lit "cab bed".
Proof. reflexivity. Qed.

Lemma py_eq_str_true v s : py_eq_str v s = true ↔ v = JStr s.
Proof.
  destruct v; simpl; try (split; [discriminate | congruence]).
  rewrite bool_decide_eq_true. split; congruence.
Qed.

Lemma str_in_elem s vc : str_in s vc = true ↔ JStr s ∈ vc.
Proof.
  unfold str_in. rewrite existsb_exists. split.
  - intros (v & Hin & Heq). apply py_eq_str_true in Heq. subst v.
    by apply list_elem_of_In.
  - intros Hin. exists (JStr s). split; [by apply list_elem_of_In |].
    by apply py_eq_str_true.
Qed.

Lemma all_chars_typeable vc w :
  forallb (λ char, str_in char vc) (chars w) = true ↔ typeable vc w.
Proof.
  unfold typeable, chars. induction w as [|c w IH]; simpl.
  - split; [constructor | done].
  - rewrite andb_true_iff, IH, str_in_elem, Forall_cons. done.
Qed.

Lemma distinct_size w : Z.of_nat (size (py_set w)) = distinct w.
Proof.
  unfold distinct, len, py_set. f_equal.
  rewrite <- (size_list_to_set (C := gset N) (remove_dups w)) by apply NoDup_remove_dups.
  f_equal. apply set_eq. intros c.
  by rewrite !elem_of_list_to_set, elem_of_remove_dups.
Qed.

Lemma half_len n : 4 ≤ n ≤ 8 → py_truediv n 2 ≫= py_int = Ok (n / 2).
Proof.
  intros Hn.
  length_cases n; reflexivity.
Qed.

Lemma apply_events_app es1 es2 w :
  apply_events (es1 ++ es2) w = apply_events es2 (apply_events es1 w).
Proof. apply foldl_app. Qed.

Lemma trace_apply_events es w : trace (apply_events es w) = trace w ++ es.
Proof.
  revert w. induction es as [|e es IH]; intros w; simpl.
  - by rewrite app_nil_r.
  - rewrite IH. simpl. by rewrite <- app_assoc.
Qed.

Lemma denied_apply_events es w : denied (apply_events es w) = denied w.
Proof. revert w. induction es as [|e es IH]; intros w; simpl; [done | by rewrite IH]. Qed.

(** ** The dictionary *)

Lemma dict_append_run d k x :
  NoDup (dict_keys d) → k ∈ dict_keys d →
  dict_append d k x = Ok ((λ kv, (kv.1, kv.2 ++ if decide (kv.1 = k) then [x] else [])) <$> d).
Proof.
  induction d as [|[k' v] d IH]; simpl; intros Hnd Hin.
  - by apply elem_of_nil in Hin.
  - apply NoDup_cons in Hnd as [Hk' Hnd].
    destruct (Z.eqb_spec k' k) as [->|Hne].
    + rewrite decide_True by done. do 2 f_equal.
      clear IH Hin Hnd. induction d as [|[k'' v'] d IH]; simpl; [done |].
      apply not_elem_of_cons in Hk' as [Hne Hk'].
      rewrite decide_False by done. rewrite app_nil_r. f_equal. by apply IH.
    + apply elem_of_cons in Hin as [->|Hin]; [done |].
      rewrite IH by done. simpl. rewrite decide_False by done. by rewrite app_nil_r.
Qed.

Lemma dict_append_neq d k x : dict_append d k x ≠ Ok d.
Proof.
  induction d as [|[k' v] d IH]; simpl; [done |].
  destruct (k' =? k).
  - intros [= Hv]. apply (f_equal length) in Hv. rewrite length_app in Hv. simpl in Hv. lia.
  - destruct (dict_append d k x) as [r|e] eqn:E; simpl; [|done].
    intros [= ->]. done.
Qed.

(** ** The scan loop *)

Lemma M_bind_unfold {A B} (m : M A) (k : A → M B) w :
  (m ≫= k) w = match m w with
               | (Ok a, w') => k a w'
               | (Raise e, w') => (Raise e, w')
               end.
Proof. reflexivity. Qed.

Lemma spec_bucket_one vc N line :
  spec_bucket vc N [line] = if decide (qualifies vc N (strip line)) then [strip line] else [].
Proof. reflexivity. Qed.

Lemma grow_rejected vc d line :
  (∀ N, N ∈ dict_keys d → ¬ qualifies vc N (strip line)) → grow vc d [line] = d.
Proof.
  unfold grow. induction d as [|[k v] d IH]; simpl; intros Hrej; [done |].
  rewrite spec_bucket_one, decide_False by (apply Hrej; left).
  rewrite app_nil_r. f_equal. apply IH. intros N HN. apply Hrej. by right.
Qed.

Lemma grow_accepted vc d line :
  qualifies vc (len (strip line)) (strip line) →
  grow vc d [line]
  = (λ kv, (kv.1, kv.2 ++ if decide (kv.1 = len (strip line)) then [strip line] else [])) <$> d.
Proof.
  intros Hq. unfold grow. apply list_fmap_ext. intros _ [k v] _. simpl.
  rewrite spec_bucket_one. do 2 f_equal.
  destruct (decide (k = len (strip line))) as [->|Hne].
  - by rewrite decide_True.
  - rewrite decide_False; [done |]. intros [Hlen _]. done.
Qed.

Lemma grow_keys vc d lines : dict_keys (grow vc d lines) = dict_keys d.
Proof. unfold grow, dict_keys. rewrite <- list_fmap_compose. done. Qed.

Lemma grow_cons vc d line lines :
  grow vc (grow vc d [line]) lines = grow vc d (line :: lines).
Proof.
  unfold grow. rewrite <- list_fmap_compose. apply list_fmap_ext.
  intros _ [k v] _. simpl. f_equal. rewrite <- app_assoc. f_equal.
  unfold spec_bucket. change (line :: lines) with ([line] ++ lines).
  by rewrite fmap_app, filter_app.
Qed.

Lemma grow_nil vc d : grow vc d [] = d.
Proof.
  unfold grow. induction d as [|[k v] d IH]; simpl; [done |].
  unfold spec_bucket at 1. simpl. rewrite app_nil_r. f_equal. apply IH.
Qed.

Lemma scan_line_run vc d line w :
  dict_keys d = dict_keys storage0 →
  scan_line line (Locals d vc) w
  = (Ok (Locals (grow vc d [line]) vc), apply_events (Print <$> diagnostic vc line) w).
Proof.
  intros Hkeys. unfold scan_line, diagnostic. cbv zeta. cbn [valid_chars storage].
  set (word := strip line).
  destruct (decide (len word < 4 ∨ 8 < len word)) as [Hout|Hin].
  { replace ((len word <? 4) || (len word >? 8)) with true by (symmetry; lia).
    rewrite grow_rejected; [done |].
    intros N Hkey (HN & _). fold word in HN. rewrite Hkeys in Hkey.
    cbn in Hkey. rewrite !elem_of_cons, elem_of_nil in Hkey. lia. }
  replace ((len word <? 4) || (len word >? 8)) with false by (symmetry; lia).
  destruct (decide (typeable vc word)) as [Hty|Hty].
  2: { apply (not_iff_compat (all_chars_typeable vc word)) in Hty.
       apply not_true_is_false in Hty. rewrite Hty. cbn [negb].
       rewrite grow_rejected; [done |].
       intros N _ (_ & Hty' & _). apply all_chars_typeable in Hty'. fold word in Hty'. congruence. }
  apply all_chars_typeable in Hty as Hb. rewrite Hb. cbn [negb].
  rewrite M_bind_unfold. unfold lift at 1. rewrite half_len by lia.
  rewrite distinct_size.
  destruct (decide (distinct word ≤ len word / 2)) as [Hfew|Hmany].
  - replace (distinct word <=? len word / 2) with true by (symmetry; lia).
    rewrite grow_rejected; [done |].
    intros N _ (HN & _ & Hd). fold word in HN, Hd. subst N. lia.
  - replace (distinct word <=? len word / 2) with false by (symmetry; lia).
    rewrite M_bind_unfold. unfold lift.
    rewrite dict_append_run.
    + rewrite grow_accepted; [done |]. fold word. split_and!; [done | done | lia].
    + rewrite Hkeys. cbn. repeat constructor; rewrite ?elem_of_cons, elem_of_nil; lia.
    + rewrite Hkeys. cbn. rewrite !elem_of_cons, elem_of_nil. lia.
Qed.

Lemma scan_lines_run vc d lines w :
  dict_keys d = dict_keys storage0 →
  for_each lines scan_line (Locals d vc) w
  = (Ok (Locals (grow vc d lines) vc),
     apply_events (Print <$> (lines ≫= diagnostic vc)) w).
Proof.
  revert d w. induction lines as [|line lines IH]; intros d w Hkeys.
  - simpl. by rewrite grow_nil.
  - simpl. rewrite M_bind_unfold, scan_line_run by done.
    rewrite IH by (by rewrite grow_keys).
    rewrite grow_cons. f_equal.
    rewrite fmap_app, apply_events_app. done.
Qed.

(** ** The loader, the scan and the writer in closed form *)

Lemma dict_get_elem d k v : NoDup (dict_keys d) → (k, v) ∈ d → dict_get d k = Ok v.
Proof.
  induction d as [|[k' v'] d IH]; simpl; intros Hnd Hin.
  - by apply elem_of_nil in Hin.
  - apply NoDup_cons in Hnd as [Hk' Hnd].
    apply elem_of_cons in Hin as [[= -> ->]|Hin].
    + by rewrite Z.eqb_refl.
    + destruct (Z.eqb_spec k' k) as [->|Hne]; [|by apply IH].
      exfalso. apply Hk'. unfold dict_keys. apply list_elem_of_fmap. by exists (k, v).
Qed.

Lemma write_bucket_run language l k v w :
  dict_get (storage l) k = Ok v →
  write_bucket language k l w
  = if denies language w k then (Raise (OSError (out_path language k)), w)
    else (Ok l, apply_events (bucket_events language (k, v)) w).
Proof.
  intros Hget. unfold denies.
  cbv [write_bucket mbind M_bind open_write lift print perform json_dump write mret M_ret].
  destruct (bool_decide (out_path language k ∈ denied w)); [done |].
  by rewrite !Hget.
Qed.

Lemma write_buckets_run language l entries w :
  (∀ k v, (k, v) ∈ entries → dict_get (storage l) k = Ok v) →
  for_each (dict_keys entries) (write_bucket language) l w
  = let '(r, es) := writer_outcome language (denies language w) entries in
    (match r with Ok _ => Ok l | Raise e => Raise e end, apply_events es w).
Proof.
  revert w. induction entries as [|[k v] entries IH]; intros w Hget; [done |].
  cbn [dict_keys fmap list_fmap for_each writer_outcome fst].
  rewrite M_bind_unfold, (write_bucket_run language l k v) by (apply Hget; left).
  destruct (denies language w k) eqn:Hdeny; [done |].
  rewrite IH by (intros k' v' Hin; apply Hget; by right).
  replace (denies language (apply_events (bucket_events language (k, v)) w))
    with (denies language w); [|done].
  destruct (writer_outcome language (denies language w) entries) as [r es].
  by rewrite apply_events_app.
Qed.

Lemma writer_run language l w :
  NoDup (dict_keys (storage l)) →
  writer language l w
  = let '(r, es) := writer_outcome language (denies language w) (storage l) in
    (match r with Ok _ => Ok l | Raise e => Raise e end, apply_events es w).
Proof.
  intros Hnd. unfold writer. apply write_buckets_run.
  intros k v Hin. by apply dict_get_elem.
Qed.

Lemma loader_run `{JSONDecoder} language keyboard w :
  loader language keyboard w
  = (decode_layout (layout_path language keyboard) (files w !! layout_path language keyboard), w).
Proof.
  unfold loader, decode_layout. rewrite M_bind_unfold. unfold open_read.
  destruct (files w !! layout_path language keyboard) as [text|]; [|done].
  rewrite M_bind_unfold. unfold json_load.
  destruct (json_loads text) as [doc|]; done.
Qed.

Lemma scan_run path vc w :
  scan path (Locals storage0 vc) w
  = match files w !! path with
    | None => (Raise (OSError path), w)
    | Some text =>
        (Ok (Locals (grow vc storage0 (readlines text)) vc),
         apply_events (Print <$> (readlines text ≫= diagnostic vc)) w)
    end.
Proof.
  unfold scan. rewrite M_bind_unfold. unfold open_read.
  destruct (files w !! path) as [text|]; [|done].
  by apply scan_lines_run.
Qed.

Lemma storage0_NoDup : NoDup (dict_keys storage0).
Proof. cbn. repeat constructor; rewrite ?elem_of_cons, elem_of_nil; lia. Qed.

Lemma main_run `{JSONDecoder} language keyboard path w :
  main language keyboard path w
  = let '(r, es) := main_outcome language keyboard path
                      (files w !! layout_path language keyboard) (files w !! path)
                      (denies language w) in
    (r, apply_events es w).
Proof.
  unfold main, main_outcome. cbv zeta.
  rewrite M_bind_unfold, loader_run.
  destruct (decode_layout _ _) as [vc|e]; [|done].
  rewrite M_bind_unfold, scan_run.
  destruct (files w !! path) as [text|]; [|done].
  rewrite M_bind_unfold, writer_run by (cbn [storage]; rewrite grow_keys; apply storage0_NoDup).
  cbn [storage].
  replace (denies language (apply_events (Print <$> (readlines text ≫= diagnostic vc)) w))
    with (denies language w).
  2: { unfold denies. by rewrite denied_apply_events. }
  destruct (writer_outcome _ _ _) as [[[]|e] es]; by rewrite apply_events_app.
Qed.

(** ** The buckets after the scan *)

Lemma dict_get_grow vc d lines N ws :
  dict_get d N = Ok ws → dict_get (grow vc d lines) N = Ok (ws ++ spec_bucket vc N lines).
Proof.
  unfold grow. induction d as [|[k v] d IH]; cbn; [done |].
  destruct (Z.eqb_spec k N) as [->|Hne]; [by intros [= ->] | apply IH].
Qed.

Lemma dict_get_storage0 N : 4 ≤ N ≤ 8 → dict_get storage0 N = Ok [].
Proof.
  intros HN. length_cases N; reflexivity.
Qed.

(** C1. For every length N from 4 to 8, the bucket for N at the end of the
    scan is exactly the sequence of trimmed input lines that have length N,
    have every character in the valid-character set and have strictly more
    than floor(N/2) distinct characters, in input order and once per input
    occurrence.  It holds for the loop over any list of lines, and for the
    scan of the lines of the word-list file. *)
Theorem scan_bucket_contents (vc : list json) (lines : list str) (w : world) (N : Z) :
  4 ≤ N ≤ 8 →
  (∃ l' w', for_each lines scan_line (Locals storage0 vc) w = (Ok l', w')
            ∧ dict_get (storage l') N = Ok (spec_bucket vc N lines))
  ∧ (∀ path text, files w !! path = Some text →
       ∃ l' w', scan path (Locals storage0 vc) w = (Ok l', w')
                ∧ dict_get (storage l') N = Ok (spec_bucket vc N (readlines text))).
Proof.
  intros HN. split.
  - eexists _, _. split; [by apply scan_lines_run |].
    cbn [storage]. by rewrite (dict_get_grow _ _ _ _ []) by by apply dict_get_storage0.
  - intros path text Hfile. eexists _, _. rewrite scan_run, Hfile. split; [done |].
    cbn [storage]. by rewrite (dict_get_grow _ _ _ _ []) by by apply dict_get_storage0.
Qed.

Lemma scan_bucket_contents_witness :
  ∃ l' w', for_each Sample.lines scan_line (Locals storage0 Sample.vc) Sample.w0 = (Ok l', w')
           ∧ dict_get (storage l') 6 = Ok (spec_bucket Sample.vc 6 Sample.lines).
Proof. apply (scan_bucket_contents Sample.vc Sample.lines Sample.w0 6). lia. Defined.

Example sample_bucket_6 :
  spec_bucket Sample.vc 6 Sample.lines = [lit "cabbed"; lit "cabbed"]
  ∧ spec_bucket Sample.vc 8 Sample.lines = [lit "deadbeer"]
  ∧ spec_bucket Sample.vc 4 Sample.lines = [].
Proof. repeat split; vm_compute; reflexivity. Qed.

(** ** The invariant of the bucket map *)

Lemma scan_line_inv line l w l' w' :
  scan_line line l w = (Ok l', w') →
  l' = l ∨ (4 ≤ len (strip line) ≤ 8 ∧ typeable (valid_chars l) (strip line)
            ∧ len (strip line) / 2 < distinct (strip line)
            ∧ dict_append (storage l) (len (strip line)) (strip line) = Ok (storage l')
            ∧ valid_chars l' = valid_chars l).
Proof.
  unfold scan_line. cbv zeta. set (word := strip line).
  destruct ((len word <? 4) || (len word >? 8)) eqn:Hrange.
  { intros [= <- _]. by left. }
  destruct (forallb _ _) eqn:Hvalid; cbn [negb].
  2: { intros [= <- _]. by left. }
  rewrite M_bind_unfold. unfold lift at 1. rewrite half_len by lia.
  rewrite distinct_size.
  destruct (distinct word <=? len word / 2) eqn:Hfew.
  { intros [= <- _]. by left. }
  rewrite M_bind_unfold. unfold lift.
  destruct (dict_append _ _ _) as [d'|e] eqn:Happ; [|done].
  intros [= <- _]. right. cbn [storage valid_chars].
  apply all_chars_typeable in Hvalid. split_and!; [lia | lia | done | lia | done | done].
Qed.

Lemma dict_append_elem d k x d' k' ws' :
  dict_append d k x = Ok d' → (k', ws') ∈ d' →
  (k', ws') ∈ d ∨ (k' = k ∧ ∃ ws, (k, ws) ∈ d ∧ ws' = ws ++ [x]).
Proof.
  revert d'. induction d as [|[k0 v] d IH]; intros d'; cbn; [done |].
  destruct (Z.eqb_spec k0 k) as [->|Hne].
  - intros [= <-] Hin. apply elem_of_cons in Hin as [[= -> ->]|Hin].
    + right. split; [done |]. exists v. split; [left | done].
    + left. by right.
  - destruct (dict_append d k x) as [r|e] eqn:E; [|done].
    cbn. intros [= <-] Hin. apply elem_of_cons in Hin as [[= -> ->]|Hin].
    + left. left.
    + destruct (IH r eq_refl Hin) as [Hold|(-> & ws & Hws & ->)].
      * left. by right.
      * right. split; [done |]. exists ws. split; [by right | done].
Qed.

Lemma bucket_inv_step line l w l' w' :
  bucket_inv (valid_chars l) (storage l) → scan_line line l w = (Ok l', w') →
  bucket_inv (valid_chars l') (storage l').
Proof.
  intros Hinv Hrun. apply scan_line_inv in Hrun as [->|(Hlen & Hty & Hd & Happ & Hvc)]; [done |].
  rewrite Hvc. intros k ws x Hin Hx.
  destruct (dict_append_elem _ _ _ _ _ _ Happ Hin) as [Hold|(-> & ws0 & Hws0 & ->)].
  - by apply (Hinv k ws).
  - apply elem_of_app in Hx as [Hx|Hx]; [by apply (Hinv _ ws0) |].
    apply list_elem_of_singleton in Hx as ->. done.
Qed.

Lemma bucket_inv_storage0 vc : bucket_inv vc storage0.
Proof.
  intros k ws x Hin Hx. unfold storage0 in Hin.
  rewrite !elem_of_cons, elem_of_nil in Hin.
  destruct Hin as [[= _ ->]|[[= _ ->]|[[= _ ->]|[[= _ ->]|[[= _ ->]|[]]]]]];
    by apply elem_of_nil in Hx.
Qed.

Lemma for_each_app {A S} (xs ys : list A) (body : A → S → M S) s w :
  for_each (xs ++ ys) body s w
  = match for_each xs body s w with
    | (Ok s', w') => for_each ys body s' w'
    | (Raise e, w') => (Raise e, w')
    end.
Proof.
  revert s w. induction xs as [|x xs IH]; intros s w; cbn [for_each app]; [done |].
  rewrite !M_bind_unfold. destruct (body x s w) as [[s'|e] w']; [apply IH | done].
Qed.

Lemma bucket_inv_grow vc lines : bucket_inv vc (grow vc storage0 lines).
Proof.
  intros k ws x Hin Hx. unfold grow in Hin.
  apply list_elem_of_fmap in Hin as ([k0 v] & [= -> ->] & Hin0). cbn in Hx.
  assert (v = [] ∧ 4 ≤ k0 ≤ 8) as [-> Hk0].
  { unfold storage0 in Hin0. rewrite !elem_of_cons, elem_of_nil in Hin0.
    destruct Hin0 as [[= -> ->]|[[= -> ->]|[[= -> ->]|[[= -> ->]|[[= -> ->]|[]]]]]]; split; (done || lia). }
  cbn in Hx. apply list_elem_of_filter in Hx as [(Hlen & Hty & Hd) _].
  subst k0. done.
Qed.

(** C2. The invariant of the bucket map holds before the first line, each
    iteration of the scan loop that completes preserves it (from any bucket
    map that satisfies it), and so it holds at every point of a scan: after
    any prefix [pre] of the input the loop has reached locals [l1] that
    satisfy it, from which the rest of the scan continues.  The invariant:
    every word in a bucket has a length from 4 to 8, only valid
    characters, more than floor(length/2) distinct characters, and is
    stored under the key equal to its length. *)
Theorem bucket_invariant (vc : list json) :
  bucket_inv vc storage0
  ∧ (∀ line l w l' w',
       bucket_inv (valid_chars l) (storage l) → scan_line line l w = (Ok l', w') →
       bucket_inv (valid_chars l') (storage l'))
  ∧ (∀ pre suf w, ∃ l1 w1,
       for_each pre scan_line (Locals storage0 vc) w = (Ok l1, w1)
       ∧ bucket_inv (valid_chars l1) (storage l1)
       ∧ for_each (pre ++ suf) scan_line (Locals storage0 vc) w
         = for_each suf scan_line l1 w1).
Proof.
  split_and!.
  - apply bucket_inv_storage0.
  - apply bucket_inv_step.
  - intros pre suf w. eexists _, _. split_and!.
    + by apply scan_lines_run.
    + apply bucket_inv_grow.
    + by rewrite for_each_app, scan_lines_run.
Qed.

Lemma bucket_invariant_witness :
  bucket_inv Sample.vc [(4, []); (5, []); (6, [lit "cabbed"]); (7, []); (8, [])].
Proof.
  apply (proj1 (proj2 (bucket_invariant Sample.vc))
           (lit "cabbed" ++ [LF]) (Locals storage0 Sample.vc) Sample.w0
           (Locals [(4, []); (5, []); (6, [lit "cabbed"]); (7, []); (8, [])] Sample.vc)
           Sample.w0).
  - apply (proj1 (bucket_invariant Sample.vc)).
  - vm_compute. reflexivity.
Defined.

(** ** The loader *)

Lemma mapM_iter_lists (rows : list (list json)) : mapM py_iter (JList <$> rows) = Ok rows.
Proof.
  induction rows as [|row rows IH]; [done |].
  cbn [fmap list_fmap mapM]. cbn [py_iter]. cbn. rewrite IH. done.
Qed.

Lemma keeps_item (item : json) :
  negb (in_strs item [[LF]; [TAB]]) = true ↔ item ≠ JStr [LF] ∧ item ≠ JStr [TAB].
Proof.
  unfold in_strs. cbn [existsb]. rewrite orb_false_r, negb_true_iff, orb_false_iff.
  rewrite <- !not_true_iff_false, !py_eq_str_true. done.
Qed.

Lemma filter_keeps (items : list json) :
  List.filter (λ item, negb (in_strs item [[LF]; [TAB]])) items
  = filter (λ item, item ≠ JStr [LF] ∧ item ≠ JStr [TAB]) items.
Proof.
  induction items as [|item items IH]; [done |].
  cbn [List.filter]. rewrite IH.
  destruct (negb (in_strs item [[LF]; [TAB]])) eqn:Hkeep.
  - apply keeps_item in Hkeep. by rewrite filter_cons_True.
  - rewrite filter_cons_False; [done |]. rewrite <- keeps_item. congruence.
Qed.

Lemma load_valid_chars_run doc sublists rows :
  py_iter doc = Ok sublists → mapM py_iter sublists = Ok rows →
  load_valid_chars doc
  = Ok (filter (λ item, item ≠ JStr [LF] ∧ item ≠ JStr [TAB]) (concat rows)).
Proof.
  intros Hdoc Hrows. unfold load_valid_chars. rewrite Hdoc. cbn. rewrite Hrows. cbn.
  by rewrite filter_keeps.
Qed.

(** C3. When the layout file [{language}/{keyboard}.json] decodes to a
    sequence of sequences [rows], the loader returns their flattening
    without the elements equal to the newline string and to the tab string:
    no other element is removed, none is added, and order and repetitions
    are those of the file.  The loader changes nothing in the world. *)
Theorem loader_flattens `{JSONDecoder} (language keyboard text : str)
    (rows : list (list json)) (w : world) :
  files w !! layout_path language keyboard = Some text →
  json_loads text = Some (JList (JList <$> rows)) →
  layout_path language keyboard = language ++ lit "/" ++ keyboard ++ lit ".json"
  ∧ loader language keyboard w
    = (Ok (filter (λ item, item ≠ JStr [LF] ∧ item ≠ JStr [TAB]) (concat rows)), w).
Proof.
  intros Hfile Hdoc. split; [done |].
  rewrite loader_run, Hfile. unfold decode_layout. rewrite Hdoc.
  f_equal. apply (load_valid_chars_run _ (JList <$> rows)); [done | apply mapM_iter_lists].
Qed.

Lemma loader_flattens_witness :
  layout_path (lit "en") (lit "qwerty") = lit "en/qwerty.json"
  ∧ @loader Sample.decoder (lit "en") (lit "qwerty") Sample.w0 = (Ok Sample.vc, Sample.w0).
Proof.
  apply (@loader_flattens Sample.decoder (lit "en") (lit "qwerty") Sample.layout_text
           [[JStr (lit "a"); JStr (lit "b"); JStr (lit "c"); JStr [LF]];
            [JStr (lit "d"); JStr (lit "e"); JStr (lit "r"); JStr [TAB]]] Sample.w0).
  - vm_compute. reflexivity.
  - vm_compute. reflexivity.
Defined.

(** Rows that are strings or dictionaries are iterated as Python iterates
    them; the same flattening applies. *)
Lemma loader_flattens_iterables `{JSONDecoder} language keyboard text doc sublists rows w :
  files w !! layout_path language keyboard = Some text →
  json_loads text = Some doc →
  py_iter doc = Ok sublists → mapM py_iter sublists = Ok rows →
  loader language keyboard w
  = (Ok (filter (λ item, item ≠ JStr [LF] ∧ item ≠ JStr [TAB]) (concat rows)), w).
Proof.
  intros Hfile Hdoc Hiter Hrows.
  rewrite loader_run, Hfile. unfold decode_layout. rewrite Hdoc.
  f_equal. by apply (load_valid_chars_run _ sublists).
Qed.

(** ** The threshold on distinct characters *)

Lemma scan_line_unique line l w :
  4 ≤ len (strip line) ≤ 8 → typeable (valid_chars l) (strip line) →
  scan_line line l w
  = if decide (distinct (strip line) ≤ len (strip line) / 2)
    then (Ok l, apply_event w (Print (not_unique_msg (strip line))))
    else (match dict_append (storage l) (len (strip line)) (strip line) with
          | Ok d' => Ok (Locals d' (valid_chars l))
          | Raise e => Raise e
          end, w).
Proof.
  intros Hlen Hty. unfold scan_line. cbv zeta. set (word := strip line) in *.
  replace ((len word <? 4) || (len word >? 8)) with false by (symmetry; lia).
  apply all_chars_typeable in Hty. rewrite Hty. cbn [negb].
  rewrite M_bind_unfold. unfold lift at 1. rewrite half_len by lia.
  rewrite distinct_size.
  destruct (decide (distinct word ≤ len word / 2)) as [Hfew|Hmany].
  - replace (distinct word <=? len word / 2) with true by (symmetry; lia). done.
  - replace (distinct word <=? len word / 2) with false by (symmetry; lia).
    rewrite M_bind_unfold. unfold lift.
    by destruct (dict_append _ _ _).
Qed.

(** C4. For a trimmed word of length L from 4 to 8 that passes the
    character check: the program's [int(len(line) / 2)], computed in
    floating point, is floor(L/2); the word is rejected, with the
    diagnostic for too few unique letters, exactly when its count of
    distinct characters is at most floor(L/2), and is otherwise appended to
    the bucket of its length; and this is the table of the specification:
    lengths 4, 5, 6, 7, 8 need at least 3, 3, 4, 4, 5 distinct characters. *)
Theorem unique_letter_threshold (line : str) (l : locals) (w : world) :
  let word := strip line in
  let L := len word in
  4 ≤ L ≤ 8 → typeable (valid_chars l) word →
  py_truediv L 2 ≫= py_int = Ok (L / 2)
  ∧ (distinct word ≤ L / 2 →
     scan_line line l w = (Ok l, apply_event w (Print (not_unique_msg word))))
  ∧ (L / 2 < distinct word →
     scan_line line l w
     = (match dict_append (storage l) L word with
        | Ok d' => Ok (Locals d' (valid_chars l))
        | Raise e => Raise e
        end, w))
  ∧ (fst (scan_line line l w) = Ok l ↔ distinct word ≤ L / 2)
  ∧ (distinct word ≤ L / 2 ↔ distinct word < min_unique L).
Proof.
  intros word L HL Hty. subst L.
  pose proof (scan_line_unique line l w HL Hty) as Hrun. fold word in Hrun.
  split_and!.
  - by apply half_len.
  - intros Hfew. by rewrite Hrun, decide_True.
  - intros Hmany. rewrite Hrun, decide_False; [done | lia].
  - rewrite Hrun. destruct (decide (distinct word ≤ len word / 2)) as [Hfew|Hmany]; [done |].
    split; [|done]. cbn [fst].
    destruct (dict_append _ _ _) as [d'|e] eqn:Happ; [|done].
    intros [= Hl]. apply (f_equal storage) in Hl. cbn [storage] in Hl. subst d'.
    by apply dict_append_neq in Happ.
  - length_cases (len word);
      match goal with
      | |- context [?a / 2] =>
          let v := eval vm_compute in (a / 2) in change (a / 2) with v
      end; cbn [min_unique]; lia.
Qed.

Lemma unique_letter_threshold_witness :
  scan_line (lit "abba" ++ [LF]) (Locals storage0 Sample.vc) Sample.w0
  = (Ok (Locals storage0 Sample.vc),
     apply_event Sample.w0 (Print (lit "Skipping abba for not enough unique letters"))).
Proof.
  apply (unique_letter_threshold (lit "abba" ++ [LF]) (Locals storage0 Sample.vc) Sample.w0).
  - vm_compute. split; discriminate.
  - vm_compute. repeat constructor.
  - vm_compute. discriminate.
Defined.

(** ** Diagnostics *)

Lemma scan_line_out_of_range line l w :
  len (strip line) < 4 ∨ 8 < len (strip line) → scan_line line l w = (Ok l, w).
Proof.
  intros Hout. unfold scan_line. cbv zeta.
  by replace ((len (strip line) <? 4) || (len (strip line) >? 8)) with true by (symmetry; lia).
Qed.

Lemma scan_line_invalid line l w :
  4 ≤ len (strip line) ≤ 8 → ¬ typeable (valid_chars l) (strip line) →
  scan_line line l w = (Ok l, apply_event w (Print (invalid_chars_msg (strip line)))).
Proof.
  intros Hlen Hty. unfold scan_line. cbv zeta.
  replace ((len (strip line) <? 4) || (len (strip line) >? 8)) with false by (symmetry; lia).
  apply (not_iff_compat (all_chars_typeable _ _)) in Hty.
  apply not_true_is_false in Hty. by rewrite Hty.
Qed.

Lemma console_apply_print w s :
  console (trace (apply_event w (Print s))) = console (trace w) ++ [s].
Proof. unfold console. cbn. by rewrite omap_app. Qed.

Lemma scan_line_console line l w :
  ∃ out, console (trace (scan_line line l w).2) = console (trace w) ++ out
         ∧ (length out ≤ 1)%nat.
Proof.
  destruct (decide (len (strip line) < 4 ∨ 8 < len (strip line))) as [Hout|Hin].
  { rewrite scan_line_out_of_range by done. cbn [snd]. exists []. split; [by rewrite app_nil_r | cbn; lia]. }
  destruct (decide (typeable (valid_chars l) (strip line))) as [Hty|Hty].
  2: { rewrite scan_line_invalid by (done || lia). cbn [snd]. eexists [_].
       split; [by rewrite console_apply_print | cbn; lia]. }
  rewrite scan_line_unique by (done || lia).
  destruct (decide _); cbn [snd].
  - eexists [_]. split; [by rewrite console_apply_print | cbn; lia].
  - exists []. split; [by rewrite app_nil_r | cbn; lia].
Qed.

(** C5. For every input line: a line whose trimmed length is below 4 or
    above 8 is skipped with no output, whatever its characters; a line of
    admissible length with an invalid character prints exactly the
    diagnostic for invalid characters, naming the word, whether or not it
    has enough distinct characters; a line of valid characters with too few
    distinct ones prints exactly the diagnostic for unique letters; no line
    prints more than one console line; and after a rejection the loop goes
    on with the next line from the same locals. *)
Theorem rejection_diagnostics (line : str) (l : locals) (w : world) :
  let word := strip line in
  (len word < 4 ∨ 8 < len word → scan_line line l w = (Ok l, w))
  ∧ (4 ≤ len word ≤ 8 → ¬ typeable (valid_chars l) word →
     scan_line line l w = (Ok l, apply_event w (Print (invalid_chars_msg word)))
     ∧ invalid_chars_msg word = lit "Skipping " ++ word ++ lit " for invalid chars")
  ∧ (4 ≤ len word ≤ 8 → typeable (valid_chars l) word → distinct word ≤ len word / 2 →
     scan_line line l w = (Ok l, apply_event w (Print (not_unique_msg word)))
     ∧ not_unique_msg word = lit "Skipping " ++ word ++ lit " for not enough unique letters")
  ∧ (∃ out, console (trace (scan_line line l w).2) = console (trace w) ++ out
            ∧ (length out ≤ 1)%nat)
  ∧ (∀ rest, fst (scan_line line l w) = Ok l →
     for_each (line :: rest) scan_line l w
     = for_each rest scan_line l (scan_line line l w).2).
Proof.
  intros word. split_and!.
  - apply scan_line_out_of_range.
  - intros Hlen Hty. split; [by apply scan_line_invalid | done].
  - intros Hlen Hty Hfew. split; [|done].
    by rewrite scan_line_unique, decide_True.
  - apply scan_line_console.
  - intros rest Hrej. cbn [for_each]. rewrite M_bind_unfold.
    destruct (scan_line line l w) as [r w']. cbn in Hrej. by subst r.
Qed.

Lemma rejection_diagnostics_witness :
  scan_line (lit "abbv" ++ [LF]) (Locals storage0 Sample.vc) Sample.w0
  = (Ok (Locals storage0 Sample.vc),
     apply_event Sample.w0 (Print (lit "Skipping abbv for invalid chars"))).
Proof.
  apply (proj1 (proj2 (rejection_diagnostics (lit "abbv" ++ [LF])
                         (Locals storage0 Sample.vc) Sample.w0))).
  - vm_compute. split; discriminate.
  - apply (bool_decide_unpack _). vm_compute. exact I.
Defined.

(** ** The valid characters are not modified *)

Lemma write_bucket_locals language k l w l' w' :
  write_bucket language k l w = (Ok l', w') → l' = l.
Proof.
  cbv [write_bucket mbind M_bind open_write lift print perform json_dump write mret M_ret].
  destruct (bool_decide _); [done |].
  destruct (dict_get (storage l) k); [|done].
  by intros [= <- _].
Qed.

Lemma for_each_locals {A} (xs : list A) (body : A → locals → M locals) l w l' w' :
  (∀ x l w l' w', body x l w = (Ok l', w') → valid_chars l' = valid_chars l) →
  for_each xs body l w = (Ok l', w') → valid_chars l' = valid_chars l.
Proof.
  intros Hbody. revert l w. induction xs as [|x xs IH]; intros l w; cbn [for_each].
  - by intros [= <- _].
  - rewrite M_bind_unfold. destruct (body x l w) as [[l1|e] w1] eqn:Hx; [|done].
    intros Hrest. apply IH in Hrest. apply Hbody in Hx. congruence.
Qed.

Lemma scan_line_valid_chars line l w l' w' :
  scan_line line l w = (Ok l', w') → valid_chars l' = valid_chars l.
Proof. intros Hrun. by apply scan_line_inv in Hrun as [->|(_ & _ & _ & _ & ?)]. Qed.

(** C9. The valid characters are those the loader returned, for the whole
    run: once the loader has returned [vc], the rest of [main] is the scan
    and the writer started from [vc], and the loader is not run again; each
    iteration of the scan loop that completes, and each iteration of the
    writer loop, leaves the valid characters as they were; so at every
    point of the scan (after any prefix of the lines) the character check
    reads the loader's value, and so does the writer. *)
Theorem valid_chars_unchanged `{JSONDecoder} (vc : list json) :
  (∀ language keyboard path w w0,
     loader language keyboard w = (Ok vc, w0) →
     w0 = w
     ∧ main language keyboard path w
       = (l ← scan path (Locals storage0 vc); _ ← writer language l; mret ()) w)
  ∧ (∀ line l w l' w', scan_line line l w = (Ok l', w') → valid_chars l' = valid_chars l)
  ∧ (∀ language k l w l' w', write_bucket language k l w = (Ok l', w') → l' = l)
  ∧ (∀ pre suf w, ∃ l1 w1,
       for_each pre scan_line (Locals storage0 vc) w = (Ok l1, w1)
       ∧ valid_chars l1 = vc
       ∧ for_each (pre ++ suf) scan_line (Locals storage0 vc) w
         = for_each suf scan_line l1 w1)
  ∧ (∀ language l w l' w', writer language l w = (Ok l', w') →
       valid_chars l' = valid_chars l).
Proof.
  split_and!.
  - intros language keyboard path w w0 Hload.
    assert (w0 = w) as -> by (rewrite loader_run in Hload; congruence).
    split; [done |]. unfold main. cbv zeta. by rewrite M_bind_unfold, Hload.
  - apply scan_line_valid_chars.
  - apply write_bucket_locals.
  - intros pre suf w. eexists _, _. split_and!.
    + by apply scan_lines_run.
    + done.
    + by rewrite for_each_app, scan_lines_run.
  - intros language l w l' w'. unfold writer. apply for_each_locals.
    intros k l0 w0 l1 w1 Hrun. by apply write_bucket_locals in Hrun as ->.
Qed.

Lemma valid_chars_unchanged_witness :
  valid_chars (Locals [(4, []); (5, []); (6, [lit "cabbed"]); (7, []); (8, [])] Sample.vc)
  = valid_chars (Locals storage0 Sample.vc).
Proof.
  apply (proj1 (proj2 (@valid_chars_unchanged Sample.decoder Sample.vc))
           (lit "cabbed" ++ [LF]) (Locals storage0 Sample.vc) Sample.w0 _ Sample.w0).
  vm_compute. reflexivity.
Defined.

(** ** The bucket lookup *)

Lemma dict_append_total d k x : k ∈ dict_keys d → ∃ d', dict_append d k x = Ok d'.
Proof.
  induction d as [|[k' v] d IH]; cbn; intros Hin.
  - by apply elem_of_nil in Hin.
  - destruct (Z.eqb_spec k' k) as [->|Hne]; [by eexists |].
    apply elem_of_cons in Hin as [->|Hin]; [done |].
    destruct (IH Hin) as [d' ->]. by eexists.
Qed.

(** C10. The lookup [storage[len(line)]] of the append step never fails.
    The bucket map starts with the keys 4, 5, 6, 7, 8; at every point of a
    scan (after any prefix [pre] of the lines) it still has exactly these
    keys; a line reaches the append step only with a trimmed length from 4
    to 8 (shorter and longer lines leave the iteration before it), for
    which the append succeeds; hence the iteration for any next line
    completes without an exception, and so does the whole loop. *)
Theorem bucket_lookup_never_fails (vc : list json) (pre : list str) (line : str) (w : world) :
  dict_keys storage0 = [4; 5; 6; 7; 8]
  ∧ ∃ l1 w1,
      for_each pre scan_line (Locals storage0 vc) w = (Ok l1, w1)
      ∧ dict_keys (storage l1) = [4; 5; 6; 7; 8]
      ∧ (len (strip line) < 4 ∨ 8 < len (strip line) → scan_line line l1 w1 = (Ok l1, w1))
      ∧ (4 ≤ len (strip line) ≤ 8 →
         ∃ d', dict_append (storage l1) (len (strip line)) (strip line) = Ok d')
      ∧ (∃ l2 w2, scan_line line l1 w1 = (Ok l2, w2))
      ∧ (∃ l3 w3, for_each (pre ++ [line]) scan_line (Locals storage0 vc) w = (Ok l3, w3)).
Proof.
  split; [done |]. eexists _, _. split_and!.
  - by apply scan_lines_run.
  - cbn [storage]. by rewrite grow_keys.
  - apply scan_line_out_of_range.
  - intros Hlen. apply dict_append_total. cbn [storage]. rewrite grow_keys.
    cbn. rewrite !elem_of_cons, elem_of_nil. lia.
  - eexists _, _. apply scan_line_run. by rewrite grow_keys.
  - eexists _, _. by apply scan_lines_run.
Qed.

Lemma bucket_lookup_never_fails_witness :
  ∃ d', dict_append (grow Sample.vc storage0 Sample.lines) 6 (lit "cabbed") = Ok d'.
Proof.
  destruct (bucket_lookup_never_fails Sample.vc Sample.lines (lit "cabbed" ++ [LF]) Sample.w0)
    as (_ & l1 & w1 & Hrun & _ & _ & Happ & _).
  rewrite scan_lines_run in Hrun by done. injection Hrun as <- _.
  apply Happ. vm_compute. split; discriminate.
Defined.

(** ** The writer *)

Lemma writer_outcome_ok language deny entries :
  (∀ k, k ∈ dict_keys entries → deny k = false) →
  writer_outcome language deny entries = (Ok (), entries ≫= bucket_events language).
Proof.
  induction entries as [|[k v] entries IH]; intros Hok; [done |].
  cbn [writer_outcome fst]. rewrite (Hok k) by left.
  rewrite IH by (intros k' Hk'; apply Hok; by right). done.
Qed.

Lemma writer_outcome_ext language deny1 deny2 entries :
  (∀ k, k ∈ dict_keys entries → deny1 k = deny2 k) →
  writer_outcome language deny1 entries = writer_outcome language deny2 entries.
Proof.
  induction entries as [|[k v] entries IH]; intros Hext; [done |].
  cbn [writer_outcome fst]. rewrite (Hext k) by left.
  rewrite IH by (intros k' Hk'; apply Hext; by right). done.
Qed.

Lemma written_app t1 t2 : written (t1 ++ t2) = written t1 ++ written t2.
Proof. apply omap_app. Qed.

Lemma console_app t1 t2 : console (t1 ++ t2) = console t1 ++ console t2.
Proof. apply omap_app. Qed.

Lemma written_prints msgs : written (Print <$> msgs) = [].
Proof. induction msgs; done. Qed.

Lemma written_buckets language entries :
  written (entries ≫= bucket_events language) = out_path language <$> dict_keys entries.
Proof.
  induction entries as [|[k v] entries IH]; [done |].
  cbn. f_equal. apply IH.
Qed.

Lemma console_buckets language entries :
  console (entries ≫= bucket_events language)
  = (λ entry, summary (len entry.2) entry.1) <$> entries.
Proof.
  induction entries as [|[k v] entries IH]; [done |].
  cbn. f_equal. apply IH.
Qed.

Lemma out_path_inj language k k' :
  4 ≤ k ≤ 8 → 4 ≤ k' ≤ 8 → out_path language k = out_path language k' → k = k'.
Proof.
  intros Hk Hk' Heq. unfold out_path in Heq. apply app_inv_head in Heq.
  length_cases k; length_cases k'; (done || by vm_compute in Heq).
Qed.

Lemma files_bucket_other language entries p w :
  (∀ k, k ∈ dict_keys entries → p ≠ out_path language k) →
  files (apply_events (entries ≫= bucket_events language) w) !! p = files w !! p.
Proof.
  revert w. induction entries as [|[k v] entries IH]; intros w Hne; [done |].
  cbn [mbind list_bind bucket_events fst snd].
  rewrite apply_events_app, IH by (intros k' Hk'; apply Hne; cbn; by right).
  assert (out_path language k ≠ p) as Hp by (intros <-; apply (Hne k); [cbn; left | done]).
  cbn. by rewrite lookup_alter_ne, lookup_insert_ne.
Qed.

Lemma files_bucket_written language entries N b w :
  (∀ k, k ∈ dict_keys entries → 4 ≤ k ≤ 8) → NoDup (dict_keys entries) →
  (N, b) ∈ entries →
  files (apply_events (entries ≫= bucket_events language) w) !! out_path language N
  = Some (json_dumps b).
Proof.
  revert w. induction entries as [|[k v] entries IH]; intros w Hkeys Hnd Hin.
  - by apply elem_of_nil in Hin.
  - cbn [dict_keys fmap list_fmap fst] in Hnd. apply NoDup_cons in Hnd as [Hk Hnd].
    cbn [mbind list_bind bucket_events fst snd]. rewrite apply_events_app.
    apply elem_of_cons in Hin as [[= -> ->]|Hin].
    + rewrite files_bucket_other.
      * cbn. by rewrite lookup_alter_eq, lookup_insert_eq.
      * intros k' Hk' Heq. apply out_path_inj in Heq; [by subst k' | |].
        -- apply Hkeys. cbn. left.
        -- apply Hkeys. cbn. by right.
    + apply IH; [|done|done]. intros k' Hk'. apply Hkeys. cbn. by right.
Qed.

Lemma keys_4_to_8 d k : dict_keys d = [4; 5; 6; 7; 8] → k ∈ dict_keys d ↔ 4 ≤ k ≤ 8.
Proof. intros ->. rewrite !elem_of_cons, elem_of_nil. lia. Qed.

(** C6. With the five keys of the bucket map and five files that can be
    opened, the writer completes and does, in this order and for the
    lengths 4, 5, 6, 7, 8 in turn: open [{language}/length{N}.json], print
    the summary line with the number of words, write the bucket as a JSON
    array.  Exactly those five files are written, each holds its bucket's
    JSON array afterwards, every other file is as before, and the array of
    an empty bucket is [[]]. *)
Theorem writer_writes_five_files (language : str) (l : locals) (w : world) :
  dict_keys (storage l) = [4; 5; 6; 7; 8] →
  (∀ N, 4 ≤ N ≤ 8 → out_path language N ∉ denied w) →
  ∃ w', writer language l w = (Ok l, w')
    ∧ trace w' = trace w ++
        (storage l ≫= λ bucket,
           [Truncate (out_path language bucket.1);
            Print (summary (len bucket.2) bucket.1);
            Write (out_path language bucket.1) (json_dumps bucket.2)])
    ∧ written (trace w') = written (trace w) ++
        [language ++ lit "/length4.json"; language ++ lit "/length5.json";
         language ++ lit "/length6.json"; language ++ lit "/length7.json";
         language ++ lit "/length8.json"]
    ∧ console (trace w') = console (trace w) ++
        ((λ bucket, lit "Writing " ++ str_of_int (len bucket.2) ++ lit " words of length "
                    ++ str_of_int bucket.1 ++ lit ".") <$> storage l)
    ∧ (∀ N b, (N, b) ∈ storage l → files w' !! out_path language N = Some (json_dumps b))
    ∧ (∀ p, (∀ N, 4 ≤ N ≤ 8 → p ≠ out_path language N) → files w' !! p = files w !! p)
    ∧ json_dumps [] = lit "[]".
Proof.
  intros Hkeys Hopen.
  assert (NoDup (dict_keys (storage l))) as Hnd.
  { rewrite Hkeys. repeat constructor; rewrite ?elem_of_cons, elem_of_nil; lia. }
  eexists. split.
  { rewrite writer_run by done. rewrite writer_outcome_ok; [done |].
    intros k Hk. apply (keys_4_to_8 _ _ Hkeys) in Hk.
    unfold denies. apply bool_decide_eq_false. by apply Hopen. }
  rewrite trace_apply_events. split_and!.
  - done.
  - by rewrite written_app, written_buckets, Hkeys.
  - by rewrite console_app, console_buckets.
  - intros N b Hin. apply files_bucket_written; [|done|done].
    intros k Hk. by apply (keys_4_to_8 _ _ Hkeys).
  - intros p Hp. apply files_bucket_other.
    intros k Hk. apply Hp. by apply (keys_4_to_8 _ _ Hkeys).
  - reflexivity.
Qed.

Lemma writer_writes_five_files_witness :
  ∃ w', writer (lit "en") (Locals (grow Sample.vc storage0 Sample.lines) Sample.vc) Sample.w0
        = (Ok (Locals (grow Sample.vc storage0 Sample.lines) Sample.vc), w')
    ∧ files w' !! lit "en/length6.json" = Some (lit "[" ++ [QUOTE] ++ lit "cabbed" ++ [QUOTE]
                                                ++ lit ", " ++ [QUOTE] ++ lit "cabbed" ++ [QUOTE] ++ lit "]")
    ∧ files w' !! lit "en/length4.json" = Some (lit "[]").
Proof.
  destruct (writer_writes_five_files (lit "en")
              (Locals (grow Sample.vc storage0 Sample.lines) Sample.vc) Sample.w0)
    as (w' & Hrun & _ & _ & _ & Hfiles & _).
  - vm_compute. reflexivity.
  - intros N _. unfold Sample.w0. cbn [denied]. apply not_elem_of_empty.
  - exists w'. split_and!; [done | |].
    + apply (Hfiles 6 [lit "cabbed"; lit "cabbed"]). vm_compute. do 2 right. left.
    + apply (Hfiles 4 []). vm_compute. left.
Defined.

(** ** The run as a function of its inputs *)

Lemma main_outcome_ok `{JSONDecoder} language keyboard path layout words deny es :
  main_outcome language keyboard path layout words deny = (Ok (), es) →
  ∃ vc text,
    decode_layout (layout_path language keyboard) layout = Ok vc
    ∧ words = Some text
    ∧ es = (Print <$> (readlines text ≫= diagnostic vc))
           ++ (grow vc storage0 (readlines text) ≫= bucket_events language)
    ∧ ∀ N, 4 ≤ N ≤ 8 → deny N = false.
Proof.
  unfold main_outcome.
  destruct (decode_layout _ _) as [vc|e]; [|done].
  destruct words as [text|]; [|done]. cbv zeta.
  destruct (writer_outcome _ _ _) as [r es'] eqn:Hw. intros [= -> <-].
  exists vc, text. split_and!; [done | done | |].
  - f_equal. revert Hw. cbn [grow storage0 fmap list_fmap writer_outcome fst snd].
    repeat (destruct (deny _); [done |]). by intros [= <-].
  - revert Hw. cbn [grow storage0 fmap list_fmap writer_outcome fst snd].
    destruct (deny 4) eqn:H4; [done |]. destruct (deny 5) eqn:H5; [done |].
    destruct (deny 6) eqn:H6; [done |]. destruct (deny 7) eqn:H7; [done |].
    destruct (deny 8) eqn:H8; [done |]. intros _ N HN.
    by length_cases N.
Qed.

Lemma grow_storage0_keys vc lines k :
  k ∈ dict_keys (grow vc storage0 lines) ↔ 4 ≤ k ≤ 8.
Proof. apply keys_4_to_8. by rewrite grow_keys. Qed.

(** C7. The run is a function of what it reads.  Two runs with the same
    arguments, from two worlds that agree on the text of the layout file,
    on the text of the word-list file and on which of the five output files
    can be opened (and that may differ in everything else: other files,
    the previous contents of the output files, what was printed before),
    end in the same way, print and write the same sequence [es] of lines
    and data, and after a run that completes each of the five output files
    exists and has the same contents in both worlds. *)
Theorem runs_are_deterministic `{JSONDecoder} (language keyboard path : str) (w1 w2 : world) :
  files w1 !! layout_path language keyboard = files w2 !! layout_path language keyboard →
  files w1 !! path = files w2 !! path →
  (∀ N, 4 ≤ N ≤ 8 → out_path language N ∈ denied w1 ↔ out_path language N ∈ denied w2) →
  ∃ r es w1' w2',
    main language keyboard path w1 = (r, w1')
    ∧ main language keyboard path w2 = (r, w2')
    ∧ trace w1' = trace w1 ++ es ∧ trace w2' = trace w2 ++ es
    ∧ console (trace w1') = console (trace w1) ++ console es
    ∧ console (trace w2') = console (trace w2) ++ console es
    ∧ (r = Ok () → ∀ N, 4 ≤ N ≤ 8 →
         is_Some (files w1' !! out_path language N)
         ∧ files w1' !! out_path language N = files w2' !! out_path language N).
Proof.
  intros Hlayout Hwords Hdeny.
  rewrite !main_run, <- Hlayout, <- Hwords.
  assert (main_outcome language keyboard path (files w1 !! layout_path language keyboard)
            (files w1 !! path) (denies language w2)
          = main_outcome language keyboard path (files w1 !! layout_path language keyboard)
              (files w1 !! path) (denies language w1)) as ->.
  { unfold main_outcome. destruct (decode_layout _ _) as [vc|e]; [|done].
    destruct (files w1 !! path) as [text|]; [|done]. cbv zeta.
    rewrite (writer_outcome_ext language (denies language w2) (denies language w1)); [done |].
    intros k Hk. apply grow_storage0_keys in Hk. unfold denies.
    apply bool_decide_ext. symmetry. by apply Hdeny. }
  destruct (main_outcome _ _ _ _ _ _) as [r es] eqn:Hout.
  exists r, es, (apply_events es w1), (apply_events es w2).
  rewrite !trace_apply_events, !console_app. split_and!; try done.
  intros -> N HN.
  apply main_outcome_ok in Hout as (vc & text & _ & _ & -> & _).
  rewrite !apply_events_app.
  assert (∀ w, files (apply_events (grow vc storage0 (readlines text) ≫= bucket_events language) w)
               !! out_path language N
               = Some (json_dumps (spec_bucket vc N (readlines text)))) as Hfile.
  { intros w. apply files_bucket_written.
    - intros k. apply grow_storage0_keys.
    - rewrite grow_keys. apply storage0_NoDup.
    - unfold grow. apply list_elem_of_fmap. exists (N, []). split; [done |].
      unfold storage0. rewrite !elem_of_cons, elem_of_nil.
      length_cases N; tauto. }
  rewrite !Hfile. done.
Qed.

Lemma runs_are_deterministic_witness :
  ∃ r es w1' w2',
    @main Sample.decoder (lit "en") (lit "qwerty") (lit "words.txt") Sample.w0 = (r, w1')
    ∧ @main Sample.decoder (lit "en") (lit "qwerty") (lit "words.txt")
        (World (<[lit "en/length4.json" := lit "old"]> (files Sample.w0)) ∅
           [Print (lit "earlier")]) = (r, w2')
    ∧ trace w1' = trace Sample.w0 ++ es
    ∧ trace w2' = [Print (lit "earlier")] ++ es.
Proof.
  destruct (@runs_are_deterministic Sample.decoder (lit "en") (lit "qwerty") (lit "words.txt")
              Sample.w0
              (World (<[lit "en/length4.json" := lit "old"]> (files Sample.w0)) ∅
                 [Print (lit "earlier")]))
    as (r & es & w1' & w2' & H1 & H2 & H3 & H4 & _).
  - vm_compute. reflexivity.
  - vm_compute. reflexivity.
  - intros N _. unfold Sample.w0. cbn [denied]. done.
  - by exists r, es, w1', w2'.
Defined.

(** ** Failures *)

Lemma writer_outcome_first_denied language deny vc lines N :
  4 ≤ N ≤ 8 → deny N = true → (∀ K, 4 ≤ K < N → deny K = false) →
  ∃ es, writer_outcome language deny (grow vc storage0 lines)
        = (Raise (OSError (out_path language N)), es)
        ∧ written es = out_path language <$> filter (λ K, K < N) [4; 5; 6; 7; 8].
Proof.
  intros HN Hdeny Hopen.
  cbn [grow storage0 fmap list_fmap writer_outcome fst snd].
  length_cases N;
    rewrite ?(Hopen 4), ?(Hopen 5), ?(Hopen 6), ?(Hopen 7) by lia;
    rewrite Hdeny; eexists; (split; [reflexivity |]); reflexivity.
Qed.

(** C8. Nothing in [main] catches an exception, so each failure ends the
    run at once with exit status 1: a layout file that cannot be opened, or
    that the decoder rejects, or whose document cannot be iterated at two
    levels, and a word list that cannot be opened, end the run before
    anything is printed or written (the world is as it was); an output file
    that cannot be opened ends it after the files of the smaller lengths
    were written, with none of the later ones.  Rejected words never end
    the run: when both inputs are readable and the five output files can be
    opened, the run completes with exit status 0, whatever the lines are,
    having written the five files. *)
Theorem failures_are_fatal `{JSONDecoder} (language keyboard path : str) (w : world) :
  let lp := layout_path language keyboard in
  let run := main language keyboard path w in
  (files w !! lp = None → run = (Raise (OSError lp), w) ∧ exit_status run.1 = 1)
  ∧ (∀ text, files w !! lp = Some text → json_loads text = None →
       run = (Raise JSONDecodeError, w) ∧ exit_status run.1 = 1)
  ∧ (∀ text doc e, files w !! lp = Some text → json_loads text = Some doc →
       load_valid_chars doc = Raise e →
       run = (Raise e, w) ∧ exit_status run.1 = 1)
  ∧ (∀ text doc vc, files w !! lp = Some text → json_loads text = Some doc →
       load_valid_chars doc = Ok vc →
       (files w !! path = None → run = (Raise (OSError path), w) ∧ exit_status run.1 = 1)
       ∧ (∀ words N, files w !! path = Some words →
            4 ≤ N ≤ 8 → out_path language N ∈ denied w →
            (∀ K, 4 ≤ K < N → out_path language K ∉ denied w) →
            run.1 = Raise (OSError (out_path language N))
            ∧ exit_status run.1 = 1
            ∧ written (trace run.2)
              = written (trace w) ++ (out_path language <$> filter (λ K, K < N) [4; 5; 6; 7; 8]))
       ∧ (∀ words, files w !! path = Some words →
            (∀ N, 4 ≤ N ≤ 8 → out_path language N ∉ denied w) →
            run.1 = Ok ()
            ∧ exit_status run.1 = 0
            ∧ written (trace run.2)
              = written (trace w) ++ (out_path language <$> [4; 5; 6; 7; 8]))).
Proof.
  intros lp run. subst run lp. rewrite main_run. unfold main_outcome, decode_layout.
  split_and!.
  - by intros ->.
  - intros text -> ->. done.
  - intros text doc e -> -> ->. done.
  - intros text doc vc -> -> ->. split_and!.
    + by intros ->.
    + intros words N -> HN Hdenied Hopen. cbv zeta.
      destruct (writer_outcome_first_denied language (denies language w) vc (readlines words) N)
        as (es & -> & Hwritten); [done | | |].
      * unfold denies. by apply bool_decide_eq_true.
      * intros K HK. unfold denies. apply bool_decide_eq_false. by apply Hopen.
      * cbn [fst snd]. split_and!; [done | done |].
        by rewrite trace_apply_events, !written_app, written_prints, Hwritten.
    + intros words -> Hopen. cbv zeta.
      rewrite writer_outcome_ok.
      * cbn [fst snd]. split_and!; [done | done |].
        by rewrite trace_apply_events, !written_app, written_prints, written_buckets, grow_keys.
      * intros k Hk. apply grow_storage0_keys in Hk.
        unfold denies. apply bool_decide_eq_false. by apply Hopen.
Qed.

Lemma failures_are_fatal_witness :
  @main Sample.decoder (lit "en") (lit "dvorak") (lit "words.txt") Sample.w0
  = (Raise (OSError (lit "en/dvorak.json")), Sample.w0)
  ∧ exit_status (@main Sample.decoder (lit "en") (lit "dvorak") (lit "words.txt") Sample.w0).1 = 1.
Proof.
  apply (proj1 (@failures_are_fatal Sample.decoder (lit "en") (lit "dvorak") (lit "words.txt")
                  Sample.w0)).
  vm_compute. reflexivity.
Defined.

(** Rejected words do not end the run: the sample run completes. *)
Example sample_run :
  let '(r, w') := @main Sample.decoder (lit "en") (lit "qwerty") (lit "words.txt") Sample.w0 in
  r = Ok ()
  ∧ console (trace w')
    = [lit "Skipping abba for not enough unique letters";
       lit "Skipping caved for invalid chars";
       lit "Writing 0 words of length 4."; lit "Writing 0 words of length 5.";
       lit "Writing 2 words of length 6."; lit "Writing 0 words of length 7.";
       lit "Writing 1 words of length 8."]
  ∧ files w' !! lit "en/length5.json" = Some (lit "[]")
  ∧ files w' !! lit "en/length8.json" = Some (lit "[" ++ [QUOTE] ++ lit "deadbeer" ++ [QUOTE] ++ lit "]").
Proof. vm_compute. repeat split; reflexivity. Qed.

(** An output file that cannot be opened ends the run after the files of
    the smaller lengths. *)
Example sample_run_denied :
  let w := World (files Sample.w0) {[lit "en/length6.json"]} [] in
  let '(r, w') := @main Sample.decoder (lit "en") (lit "qwerty") (lit "words.txt") w in
  r = Raise (OSError (lit "en/length6.json"))
  ∧ written (trace w') = [lit "en/length4.json"; lit "en/length5.json"]
  ∧ files w' !! lit "en/length7.json" = None.
Proof. vm_compute. repeat split; reflexivity. Qed.

(** A layout document that is a string, or a dictionary, is iterated
    without complaint: only documents that cannot be iterated at two levels
    are refused. *)
Example layout_string_is_iterated :
  load_valid_chars (JStr (lit "abc")) = Ok [JStr (lit "a"); JStr (lit "b"); JStr (lit "c")]
  ∧ load_valid_chars (JDict [(lit "ab", JInt 1)]) = Ok [JStr (lit "a"); JStr (lit "b")]
  ∧ load_valid_chars (JList [JInt 1]) = Raise TypeError
  ∧ load_valid_chars (JInt 1) = Raise TypeError.
Proof. repeat split; reflexivity. Qed.

(** * Further properties *)

(** ** Trimming *)

Lemma lstrip_head s c rest : lstrip s = c :: rest → isspace c = false.
Proof.
  induction s as [|a s IH]; cbn [lstrip]; [done |].
  destruct (isspace a) eqn:Ha; [done |]. by intros [= <- _].
Qed.

Lemma lstrip_nonspace c rest : isspace c = false → lstrip (c :: rest) = c :: rest.
Proof. intros Hc. cbn [lstrip]. by rewrite Hc. Qed.

Lemma lstrip_snoc_nonspace s c : isspace c = false → lstrip (s ++ [c]) = lstrip s ++ [c].
Proof.
  intros Hc. induction s as [|a s IH]; cbn [lstrip app].
  - by rewrite Hc.
  - destruct (isspace a); [done | done].
Qed.

Lemma rstrip_cons_nonspace c rest : isspace c = false → rstrip (c :: rest) = c :: rstrip rest.
Proof.
  intros Hc. unfold rstrip. cbn [rev]. rewrite lstrip_snoc_nonspace by done.
  by rewrite rev_app_distr.
Qed.

Lemma rstrip_idem s : rstrip (rstrip s) = rstrip s.
Proof.
  unfold rstrip. rewrite rev_involutive. f_equal.
  destruct (lstrip (rev s)) as [|c rest] eqn:Hs; [done |].
  apply lstrip_nonspace. by apply lstrip_head in Hs.
Qed.

Lemma strip_cases s :
  strip s = [] ∨ ∃ c rest, lstrip s = c :: rest ∧ isspace c = false ∧ strip s = c :: rstrip rest.
Proof.
  unfold strip. destruct (lstrip s) as [|c rest] eqn:Hs; [by left |].
  right. exists c, rest. apply lstrip_head in Hs as Hc.
  by rewrite rstrip_cons_nonspace.
Qed.

Lemma strip_idem s : strip (strip s) = strip s.
Proof.
  destruct (strip_cases s) as [->|(c & rest & _ & Hc & ->)]; [done |].
  unfold strip. rewrite lstrip_nonspace by done.
  by rewrite !rstrip_cons_nonspace, rstrip_idem.
Qed.

Lemma rstrip_last s c : last (rstrip s) = Some c → isspace c = false.
Proof.
  unfold rstrip.
  destruct (lstrip (rev s)) as [|a rest] eqn:Hs; [done |].
  cbn [rev]. rewrite last_snoc. intros [= <-]. by apply lstrip_head in Hs.
Qed.

Lemma strip_ends s :
  (∀ c, head (strip s) = Some c → isspace c = false)
  ∧ (∀ c, last (strip s) = Some c → isspace c = false).
Proof.
  split; intros c.
  - destruct (strip_cases s) as [->|(a & rest & _ & Ha & ->)]; [done |].
    by intros [= <-].
  - unfold strip. apply rstrip_last.
Qed.

Lemma lstrip_all_space s : Forall (λ c, isspace c = true) s → lstrip s = [].
Proof. induction 1 as [|c s Hc _ IH]; [done |]. cbn [lstrip]. by rewrite Hc. Qed.

Lemma strip_all_space s : Forall (λ c, isspace c = true) s → strip s = [].
Proof. intros Hs. unfold strip. by rewrite lstrip_all_space. Qed.

Lemma bucket_word_stripped vc lines N w :
  w ∈ spec_bucket vc N lines → ∃ line, line ∈ lines ∧ w = strip line ∧ qualifies vc N w.
Proof.
  unfold spec_bucket. intros Hw. apply list_elem_of_filter in Hw as [Hq Hw].
  apply list_elem_of_fmap in Hw as (line & -> & Hline). by exists line.
Qed.

Lemma grow_storage0_elem vc lines k ws :
  (k, ws) ∈ grow vc storage0 lines → 4 ≤ k ≤ 8 ∧ ws = spec_bucket vc k lines.
Proof.
  unfold grow, storage0. rewrite list_elem_of_fmap. intros ([k0 v] & [= -> ->] & Hin).
  rewrite !elem_of_cons, elem_of_nil in Hin. cbn [fst snd].
  destruct Hin as [[= -> ->]|[[= -> ->]|[[= -> ->]|[[= -> ->]|[[= -> ->]|[]]]]]]; (split; [lia | done]).
Qed.

(** X1. The words of the buckets are trimmed: after a scan, every word in
    a bucket is unchanged by a further [strip], and neither its first nor
    its last character is whitespace. *)
Theorem bucket_words_are_trimmed (vc : list json) (lines : list str) (w : world) :
  ∃ l' w', for_each lines scan_line (Locals storage0 vc) w = (Ok l', w')
    ∧ ∀ k ws word, (k, ws) ∈ storage l' → word ∈ ws →
        strip word = word
        ∧ (∀ c, head word = Some c → isspace c = false)
        ∧ (∀ c, last word = Some c → isspace c = false).
Proof.
  eexists _, _. split; [by apply scan_lines_run |].
  cbn [storage]. intros k ws word Hin Hword.
  apply grow_storage0_elem in Hin as [_ ->].
  apply bucket_word_stripped in Hword as (line & _ & -> & _).
  split; [apply strip_idem | apply strip_ends].
Qed.

(** X2. A line made of whitespace only, the empty line among them, is
    skipped without output and without a change of the locals. *)
Theorem blank_lines_are_skipped (line : str) (l : locals) (w : world) :
  Forall (λ c, isspace c = true) line → scan_line line l w = (Ok l, w).
Proof.
  intros Hblank. apply scan_line_out_of_range.
  rewrite strip_all_space by done. left. done.
Qed.

Lemma blank_lines_are_skipped_witness :
  scan_line (lit "   " ++ [TAB; CR; LF]) (Locals storage0 Sample.vc) Sample.w0
  = (Ok (Locals storage0 Sample.vc), Sample.w0).
Proof.
  apply blank_lines_are_skipped. vm_compute. repeat constructor.
Defined.

Lemma bucket_words_are_trimmed_witness :
  strip (lit "deadbeer") = lit "deadbeer"
  ∧ (∀ c, head (lit "deadbeer") = Some c → isspace c = false)
  ∧ (∀ c, last (lit "deadbeer") = Some c → isspace c = false).
Proof.
  destruct (bucket_words_are_trimmed Sample.vc Sample.lines Sample.w0)
    as (l' & w' & Hrun & Hwords).
  rewrite scan_lines_run in Hrun by done. injection Hrun as <- _.
  apply (Hwords 8 [lit "deadbeer"]).
  - vm_compute. do 4 right. left.
  - left.
Defined.

(** ** The characters of accepted words *)

Lemma load_valid_chars_excludes doc vc :
  load_valid_chars doc = Ok vc → (JStr [LF] ∉ vc) ∧ (JStr [TAB] ∉ vc).
Proof.
  unfold load_valid_chars.
  destruct (py_iter doc) as [sublists|e]; [|done]. cbn.
  destruct (mapM py_iter sublists) as [rows|e]; [|done]. cbn.
  intros [= <-]. rewrite filter_keeps.
  split; intros Hin; apply list_elem_of_filter in Hin as [[H1 H2] _]; done.
Qed.

(** X3. No accepted word contains a line feed or a tab: when the valid
    characters come from the loader, whatever the layout document holds,
    every word in a bucket after a scan is free of both characters, in any
    position. *)
Theorem bucket_words_have_no_newline_or_tab (doc : json) (vc : list json)
    (lines : list str) (w : world) :
  load_valid_chars doc = Ok vc →
  ∃ l' w', for_each lines scan_line (Locals storage0 vc) w = (Ok l', w')
    ∧ ∀ k ws word, (k, ws) ∈ storage l' → word ∈ ws → (LF ∉ word) ∧ (TAB ∉ word).
Proof.
  intros Hload. apply load_valid_chars_excludes in Hload as [HLF HTAB].
  eexists _, _. split; [by apply scan_lines_run |].
  cbn [storage]. intros k ws word Hin Hword.
  apply grow_storage0_elem in Hin as [_ ->].
  apply bucket_word_stripped in Hword as (line & _ & _ & _ & Hty & _).
  unfold typeable in Hty. rewrite Forall_forall in Hty.
  split; intros Hc; apply Hty in Hc; done.
Qed.

Lemma bucket_words_have_no_newline_or_tab_witness :
  ∃ l' w', for_each Sample.lines scan_line (Locals storage0 Sample.vc) Sample.w0 = (Ok l', w')
    ∧ ∀ k ws word, (k, ws) ∈ storage l' → word ∈ ws → (LF ∉ word) ∧ (TAB ∉ word).
Proof.
  apply (bucket_words_have_no_newline_or_tab Sample.layout). vm_compute. reflexivity.
Defined.

(** ** What the scan touches *)

Lemma files_apply_prints msgs w : files (apply_events (Print <$> msgs) w) = files w.
Proof. revert w. induction msgs as [|m msgs IH]; intros w; simpl; [done | by rewrite IH]. Qed.

Lemma scan_line_prints line l w :
  ∃ out, (scan_line line l w).2 = apply_events (Print <$> out) w.
Proof.
  destruct (decide (len (strip line) < 4 ∨ 8 < len (strip line))) as [Hout|Hin].
  { rewrite scan_line_out_of_range by done. by exists []. }
  destruct (decide (typeable (valid_chars l) (strip line))) as [Hty|Hty].
  2: { rewrite scan_line_invalid by (done || lia). by eexists [_]. }
  rewrite scan_line_unique by (done || lia).
  destruct (decide _); [by eexists [_] | by exists []].
Qed.

Lemma scan_lines_print lines l w :
  ∃ out, (for_each lines scan_line l w).2 = apply_events (Print <$> out) w.
Proof.
  revert l w. induction lines as [|line lines IH]; intros l w; cbn [for_each].
  - by exists [].
  - rewrite M_bind_unfold. destruct (scan_line_prints line l w) as [out1 H1].
    destruct (scan_line line l w) as [[l1|e] w1]; cbn [snd] in H1; subst w1.
    + destruct (IH l1 (apply_events (Print <$> out1) w)) as [out2 H2].
      exists (out1 ++ out2). by rewrite H2, fmap_app, apply_events_app.
    + by exists out1.
Qed.

(** X4. The scan loop touches nothing but the console: from any locals
    and for any lines, whether it completes or not, it leaves every file
    as it was, opens and writes none, and adds only printed lines to the
    trace. *)
Theorem scan_only_prints (lines : list str) (l : locals) (w : world) :
  let w' := (for_each lines scan_line l w).2 in
  files w' = files w
  ∧ denied w' = denied w
  ∧ written (trace w') = written (trace w)
  ∧ ∃ out, trace w' = trace w ++ (Print <$> out).
Proof.
  intros w'. subst w'. destruct (scan_lines_print lines l w) as [out ->].
  rewrite files_apply_prints, denied_apply_events, trace_apply_events.
  split_and!; [done | done | | by exists out].
  by rewrite written_app, written_prints, app_nil_r.
Qed.

(** ** Every line is accounted for *)

Lemma spec_bucket_cons vc N line lines :
  spec_bucket vc N (line :: lines)
  = (if decide (qualifies vc N (strip line)) then [strip line] else [])
    ++ spec_bucket vc N lines.
Proof.
  unfold spec_bucket. cbn [fmap list_fmap]. rewrite filter_cons.
  by destruct (decide _).
Qed.

Lemma spec_bucket_app vc N pre suf :
  spec_bucket vc N (pre ++ suf) = spec_bucket vc N pre ++ spec_bucket vc N suf.
Proof. unfold spec_bucket. by rewrite fmap_app, filter_app. Qed.

Lemma line_fate vc line :
  let word := strip line in
  (length (filter (λ x, (len x < 4)%Z ∨ (8 < len x)%Z) [word])
   + length (diagnostic vc line)
   + (length (filter (qualifies vc 4) [word]) + length (filter (qualifies vc 5) [word])
      + length (filter (qualifies vc 6) [word]) + length (filter (qualifies vc 7) [word])
      + length (filter (qualifies vc 8) [word])))%nat = 1%nat.
Proof.
  intros word. unfold diagnostic. fold word.
  rewrite !filter_cons, !filter_nil.
  destruct (decide (len word < 4 ∨ 8 < len word)) as [Hout|Hin].
  { rewrite !decide_False by (intros [? _]; lia). done. }
  destruct (decide (typeable vc word)) as [Hty|Hty].
  2: { rewrite !decide_False by (intros (_ & ? & _); done). done. }
  destruct (decide (distinct word ≤ len word / 2)) as [Hfew|Hmany].
  { rewrite !decide_False; [done | intros (<- & _ & ?); lia ..]. }
  assert (∀ N, qualifies vc N word ↔ N = len word) as Hq.
  { intros N. unfold qualifies. split; [by intros [<- _] | intros ->].
    split_and!; [done | done | lia]. }
  rewrite !(decide_ext _ _ _ _ (Hq _)).
  repeat case_decide; cbn [length]; lia.
Qed.

Lemma console_prints msgs : console (Print <$> msgs) = msgs.
Proof. induction msgs as [|m msgs IH]; [done |]. cbn. f_equal. apply IH. Qed.

Lemma sum_buckets vc lines :
  sum_list ((λ kv, length kv.2) <$> grow vc storage0 lines)
  = (length (spec_bucket vc 4 lines) + length (spec_bucket vc 5 lines)
     + length (spec_bucket vc 6 lines) + length (spec_bucket vc 7 lines)
     + length (spec_bucket vc 8 lines))%nat.
Proof. cbn. lia. Qed.

(** X5. Every line is accounted for exactly once: after a scan, the number
    of lines read is the number of lines skipped for their length, plus the
    number of diagnostics printed, plus the number of words in the five
    buckets. *)
Theorem every_line_is_accounted_for (vc : list json) (lines : list str) (w : world) :
  ∃ l' w', for_each lines scan_line (Locals storage0 vc) w = (Ok l', w')
    ∧ (length lines
       = length (filter (λ x, (len x < 4)%Z ∨ (8 < len x)%Z) (strip <$> lines))
         + (length (console (trace w')) - length (console (trace w)))
         + sum_list ((λ kv, length kv.2) <$> storage l'))%nat.
Proof.
  eexists _, _. split; [by apply scan_lines_run |].
  rewrite trace_apply_events, console_app, console_prints, length_app.
  cbn [storage]. rewrite sum_buckets.
  replace (length (console (trace w)) + length (lines ≫= diagnostic vc)
           - length (console (trace w)))%nat
    with (length (lines ≫= diagnostic vc)) by lia.
  induction lines as [|line lines IH]; [done |].
  cbn [fmap list_fmap mbind list_bind length].
  rewrite !spec_bucket_cons, filter_cons, !length_app, IH.
  pose proof (line_fate vc line) as Hone. cbv zeta in Hone.
  rewrite !filter_cons, !filter_nil in Hone.
  unfold str in *. repeat case_decide; cbn [length] in *; lia.
Qed.

(** ** Buckets only grow *)

(** X6. The scan only appends: the bucket a length has after any prefix of
    the lines is a prefix of the bucket it has after all of them, so no
    word once accepted is removed, replaced or moved. *)
Theorem buckets_only_grow (vc : list json) (pre suf : list str) (w : world) (N : Z) :
  4 ≤ N ≤ 8 →
  ∃ l1 w1 l2 w2 b1 b2,
    for_each pre scan_line (Locals storage0 vc) w = (Ok l1, w1)
    ∧ for_each (pre ++ suf) scan_line (Locals storage0 vc) w = (Ok l2, w2)
    ∧ dict_get (storage l1) N = Ok b1
    ∧ dict_get (storage l2) N = Ok b2
    ∧ b1 `prefix_of` b2.
Proof.
  intros HN. eexists _, _, _, _, _, _. split_and!.
  - by apply scan_lines_run.
  - by apply scan_lines_run.
  - cbn [storage]. by apply dict_get_grow, dict_get_storage0.
  - cbn [storage]. by apply dict_get_grow, dict_get_storage0.
  - cbn [app]. rewrite spec_bucket_app. by apply prefix_app_r.
Qed.

Lemma buckets_only_grow_witness :
  ∃ l1 w1 l2 w2 b1 b2,
    for_each (take 2 Sample.lines) scan_line (Locals storage0 Sample.vc) Sample.w0 = (Ok l1, w1)
    ∧ for_each (take 2 Sample.lines ++ drop 2 Sample.lines) scan_line
        (Locals storage0 Sample.vc) Sample.w0 = (Ok l2, w2)
    ∧ dict_get (storage l1) 6 = Ok b1
    ∧ dict_get (storage l2) 6 = Ok b2
    ∧ b1 `prefix_of` b2.
Proof. apply buckets_only_grow. lia. Defined.

(** ** What the result depends on *)

Lemma diagnostic_strip vc a b : strip a = strip b → diagnostic vc a = diagnostic vc b.
Proof. intros Heq. unfold diagnostic. by rewrite Heq. Qed.

Lemma diagnostics_strip vc lines1 lines2 :
  strip <$> lines1 = strip <$> lines2 →
  lines1 ≫= diagnostic vc = lines2 ≫= diagnostic vc.
Proof.
  revert lines2. induction lines1 as [|a lines1 IH]; intros [|b lines2]; try done.
  cbn [fmap list_fmap mbind list_bind]. intros [= Hab Hrest].
  by rewrite (diagnostic_strip vc a b), (IH lines2).
Qed.

(** X7. The scan depends on the lines only through their trimmed text: two
    lists of lines that agree after [strip] (say, one with carriage returns
    or trailing blanks and one without) give the same buckets and the same
    console output. *)
Theorem scan_depends_on_trimmed_lines (vc : list json) (lines1 lines2 : list str) (w : world) :
  strip <$> lines1 = strip <$> lines2 →
  ∃ l' w', for_each lines1 scan_line (Locals storage0 vc) w = (Ok l', w')
    ∧ for_each lines2 scan_line (Locals storage0 vc) w = (Ok l', w').
Proof.
  intros Heq. eexists _, _. rewrite !scan_lines_run by done.
  split; [done |]. unfold grow, spec_bucket. by rewrite Heq, (diagnostics_strip vc lines1 lines2).
Qed.

Lemma scan_depends_on_trimmed_lines_witness :
  ∃ l' w',
    for_each [lit "cabbed" ++ [CR; LF]; lit " abba  " ++ [LF]] scan_line
      (Locals storage0 Sample.vc) Sample.w0 = (Ok l', w')
    ∧ for_each [lit "cabbed"; lit "abba"] scan_line
        (Locals storage0 Sample.vc) Sample.w0 = (Ok l', w').
Proof. apply scan_depends_on_trimmed_lines. vm_compute. reflexivity. Defined.

Lemma typeable_ext vc1 vc2 word :
  (∀ c, JStr [c] ∈ vc1 ↔ JStr [c] ∈ vc2) → typeable vc1 word ↔ typeable vc2 word.
Proof. intros Hvc. unfold typeable. apply Forall_iff. intros c. apply Hvc. Qed.

Lemma qualifies_ext vc1 vc2 N word :
  (∀ c, JStr [c] ∈ vc1 ↔ JStr [c] ∈ vc2) → qualifies vc1 N word ↔ qualifies vc2 N word.
Proof. intros Hvc. unfold qualifies. by rewrite (typeable_ext vc1 vc2). Qed.

Lemma diagnostic_ext vc1 vc2 line :
  (∀ c, JStr [c] ∈ vc1 ↔ JStr [c] ∈ vc2) → diagnostic vc1 line = diagnostic vc2 line.
Proof.
  intros Hvc. unfold diagnostic. cbv zeta.
  destruct (decide (len (strip line) < 4 ∨ 8 < len (strip line))); [done |].
  by rewrite (decide_ext _ _ _ _ (typeable_ext vc1 vc2 (strip line) Hvc)).
Qed.

(** X8. The valid characters act as a set of one-character strings: two
    collections with the same one-character members (whatever their order,
    their repetitions and their other elements, such as longer strings or
    numbers) give the same buckets and the same console output. *)
Theorem valid_chars_act_as_a_set (vc1 vc2 : list json) (lines : list str) (w : world) :
  (∀ c, JStr [c] ∈ vc1 ↔ JStr [c] ∈ vc2) →
  ∃ d w', for_each lines scan_line (Locals storage0 vc1) w = (Ok (Locals d vc1), w')
    ∧ for_each lines scan_line (Locals storage0 vc2) w = (Ok (Locals d vc2), w').
Proof.
  intros Hvc.
  assert (lines ≫= diagnostic vc1 = lines ≫= diagnostic vc2) as Hdiag.
  { induction lines as [|line lines IH]; [done |].
    cbn [mbind list_bind]. by rewrite IH, (diagnostic_ext vc1 vc2). }
  assert (grow vc1 storage0 lines = grow vc2 storage0 lines) as Hgrow.
  { unfold grow, spec_bucket. apply list_fmap_ext. intros _ [k v] _. cbn [fst snd].
    do 2 f_equal. apply list_filter_iff. intros word. by apply qualifies_ext. }
  eexists _, _. rewrite !scan_lines_run by done.
  split; [done |]. by rewrite Hgrow, Hdiag.
Qed.

Lemma valid_chars_act_as_a_set_witness :
  ∃ d w',
    for_each Sample.lines scan_line (Locals storage0 Sample.vc) Sample.w0
    = (Ok (Locals d Sample.vc), w')
    ∧ for_each Sample.lines scan_line
        (Locals storage0 (JInt 7 :: JStr (lit "ab") :: rev Sample.vc ++ Sample.vc)) Sample.w0
      = (Ok (Locals d (JInt 7 :: JStr (lit "ab") :: rev Sample.vc ++ Sample.vc)), w').
Proof.
  apply valid_chars_act_as_a_set. intros c.
  unfold Sample.vc. cbn. rewrite !elem_of_cons, !elem_of_nil.
  split; intros H; repeat (destruct H as [H|H]); first [discriminate H | tauto].
Defined.

(** ** A layout without usable characters *)

Lemma typeable_nil vc word :
  (∀ c, JStr [c] ∉ vc) → typeable vc word → word = [].
Proof.
  intros Hvc Hty. destruct word as [|c word]; [done |].
  apply Forall_cons in Hty as [Hc _]. by apply Hvc in Hc.
Qed.

(** X9. When the valid characters hold no one-character string (an empty
    layout, or one of numbers or longer strings only), no word is accepted:
    the scan ends with the five buckets empty, and every line of length 4
    to 8 after trimming, in input order, is reported for invalid
    characters. *)
Theorem unusable_layout_accepts_nothing (vc : list json) (lines : list str) (w : world) :
  (∀ c, JStr [c] ∉ vc) →
  ∃ w', for_each lines scan_line (Locals storage0 vc) w = (Ok (Locals storage0 vc), w')
    ∧ console (trace w')
      = console (trace w)
        ++ (invalid_chars_msg <$> filter (λ x, 4 ≤ len x ≤ 8) (strip <$> lines)).
Proof.
  intros Hvc.
  assert (∀ word, 4 ≤ len word → ¬ typeable vc word) as Hno.
  { intros word Hlen Hty. apply typeable_nil in Hty as ->; [|done]. unfold len in Hlen. cbn in Hlen. lia. }
  eexists. split.
  - rewrite scan_lines_run by done. do 3 f_equal.
    induction lines as [|line lines IH]; [done |].
    rewrite <- grow_cons, grow_rejected; [done |].
    intros N HN (Hlen & Hty & _). apply (keys_4_to_8 storage0) in HN; [|done].
    apply (Hno (strip line)); [lia | done].
  - rewrite trace_apply_events, console_app, console_prints. f_equal.
    induction lines as [|line lines IH]; [done |].
    cbn [mbind list_bind fmap list_fmap]. rewrite filter_cons, IH.
    unfold diagnostic. cbv beta zeta.
    destruct (decide (len (strip line) < 4 ∨ 8 < len (strip line))) as [Hout|Hin];
      destruct (decide (4 ≤ len (strip line) ≤ 8)) as [Hr|Hr]; try lia; [done |].
    by rewrite decide_False by (apply Hno; lia).
Qed.

Lemma unusable_layout_accepts_nothing_witness :
  ∃ w', for_each Sample.lines scan_line (Locals storage0 [JInt 1; JStr (lit "ab")]) Sample.w0
        = (Ok (Locals storage0 [JInt 1; JStr (lit "ab")]), w')
    ∧ console (trace w')
      = console (trace Sample.w0)
        ++ (invalid_chars_msg <$> filter (λ x, 4 ≤ len x ≤ 8) (strip <$> Sample.lines)).
Proof.
  apply unusable_layout_accepts_nothing. intros c.
  rewrite !elem_of_cons, elem_of_nil. intros [H|[H|[]]]; discriminate H.
Defined.

(** ** Distinct characters *)

Lemma remove_dups_NoDup_id (s : str) : NoDup s → remove_dups s = s.
Proof.
  induction 1 as [|c s Hc _ IH]; [done |].
  cbn [remove_dups]. destruct (decide_rel elem_of c s) as [Hin|_]; [done |]. by rewrite IH.
Qed.

Lemma distinct_pos word : word ≠ [] → 1 ≤ distinct word.
Proof.
  intros Hne. unfold distinct, len.
  destruct (remove_dups word) as [|c rest] eqn:Hr; [|cbn; lia].
  destruct word as [|a word]; [done |].
  assert (a ∈ remove_dups (a :: word)) as Ha by (apply elem_of_remove_dups; left).
  rewrite Hr in Ha. by apply elem_of_nil in Ha.
Qed.

(** X10. The threshold from the side of the words: every word in a bucket
    has at least three distinct characters, and a line whose trimmed word
    has a length from 4 to 8, valid characters only and no character twice,
    is always accepted into the bucket of its length. *)
Theorem distinct_letters_suffice (vc : list json) (lines : list str) (w : world) :
  ∃ l' w', for_each lines scan_line (Locals storage0 vc) w = (Ok l', w')
    ∧ (∀ k ws word, (k, ws) ∈ storage l' → word ∈ ws → 3 ≤ distinct word)
    ∧ (∀ line, line ∈ lines → 4 ≤ len (strip line) ≤ 8 →
         typeable vc (strip line) → NoDup (strip line) →
         ∃ ws, dict_get (storage l') (len (strip line)) = Ok ws ∧ strip line ∈ ws).
Proof.
  eexists _, _. split; [by apply scan_lines_run |]. cbn [storage]. split.
  - intros k ws word Hin Hword. apply grow_storage0_elem in Hin as [Hk ->].
    apply bucket_word_stripped in Hword as (_ & _ & _ & _ & _ & Hd).
    assert (2 ≤ k / 2) by (apply Z.div_le_lower_bound; lia). lia.
  - intros line Hline Hlen Hty Hnd. eexists. split.
    + by apply dict_get_grow, dict_get_storage0.
    + cbn [app]. unfold spec_bucket. apply list_elem_of_filter. split.
      * split_and!; [done | done |]. unfold distinct. rewrite remove_dups_NoDup_id by done.
        apply Z.div_lt; lia.
      * apply list_elem_of_fmap. by exists line.
Qed.

Lemma distinct_letters_suffice_witness :
  ∃ ws, dict_get (grow Sample.vc storage0 [lit " abcd" ++ [LF]]) 4 = Ok ws ∧ lit "abcd" ∈ ws.
Proof.
  destruct (distinct_letters_suffice Sample.vc [lit " abcd" ++ [LF]] Sample.w0)
    as (l' & w' & Hrun & _ & Hacc).
  rewrite scan_lines_run in Hrun by done. injection Hrun as <- _.
  apply (Hacc (lit " abcd" ++ [LF])).
  - left.
  - vm_compute. split; discriminate.
  - vm_compute. repeat constructor.
  - apply (bool_decide_unpack _). vm_compute. exact I.
Defined.

(** ** The dictionary *)

(** X11. Appending under a key and reading it back: when the key is
    present, the append succeeds, the key then holds its old list followed
    by the new word, every other key holds what it held, and the order of
    the keys is unchanged; when the key is absent, the append raises
    [KeyError] for that key, as the lookup does. *)
Theorem dict_append_then_get (d : dict) (k : Z) (x : str) :
  match dict_get d k with
  | Ok v =>
      ∃ d', dict_append d k x = Ok d'
        ∧ dict_get d' k = Ok (v ++ [x])
        ∧ (∀ k', k' ≠ k → dict_get d' k' = dict_get d k')
        ∧ dict_keys d' = dict_keys d
  | Raise e => e = KeyError k ∧ dict_append d k x = Raise (KeyError k)
  end.
Proof.
  induction d as [|[k0 v0] d IH]; cbn [dict_get dict_append]; [done |].
  destruct (Z.eqb_spec k0 k) as [->|Hne].
  - eexists. split; [done |]. cbn [dict_get dict_keys fmap list_fmap].
    rewrite Z.eqb_refl. split_and!; [done | | done].
    intros k' Hk'. by destruct (Z.eqb_spec k k').
  - destruct (dict_get d k) as [v|e].
    + destruct IH as (d' & -> & Hget & Hother & Hkeys). eexists. split; [done |].
      cbn [dict_get dict_keys fmap list_fmap fst]. split_and!.
      * by destruct (Z.eqb_spec k0 k).
      * intros k' Hk'. destruct (k0 =? k'); [done | by apply Hother].
      * f_equal. apply Hkeys.
    + destruct IH as [-> ->]. done.
Qed.

(** ** The loader's failures *)

Lemma mapM_iter_ok_inv subs rows : mapM py_iter subs = Ok rows → Forall iterable subs.
Proof.
  revert rows. induction subs as [|v subs IH]; intros rows; [done |]. cbn [mapM].
  destruct v; cbn; try done.
  all: destruct (mapM py_iter subs) as [rows'|e] eqn:Hrows; cbn; [|done].
  all: intros _; constructor; [done | by eapply IH].
Qed.

Lemma mapM_iter_raise subs e :
  mapM py_iter subs = Raise e → e = TypeError ∧ Exists (λ v, ¬ iterable v) subs.
Proof.
  induction subs as [|v subs IH]; [done |]. cbn [mapM].
  destruct v; cbn; try (intros [= <-]; split; [done | left; intros []]).
  all: destruct (mapM py_iter subs) as [rows|e'] eqn:Hrows; cbn; [done |].
  all: intros [= <-]; destruct (IH eq_refl) as [-> Hex]; split; [done | by right].
Qed.

(** X12. The loader fails only with [TypeError], and exactly when the
    layout document, or one of the elements it yields, is not a string, a
    list or a dictionary; every other document is flattened, whatever its
    items are. *)
Theorem loader_fails_only_on_non_iterables (doc : json) :
  match load_valid_chars doc with
  | Ok _ => ∃ subs, py_iter doc = Ok subs ∧ Forall iterable subs
  | Raise e =>
      e = TypeError
      ∧ (¬ iterable doc ∨ ∃ subs, py_iter doc = Ok subs ∧ Exists (λ v, ¬ iterable v) subs)
  end.
Proof.
  unfold load_valid_chars.
  destruct (py_iter doc) as [subs|e] eqn:Hdoc.
  - cbn. destruct (mapM py_iter subs) as [rows|e] eqn:Hrows; cbn.
    + exists subs. split; [done | by apply mapM_iter_ok_inv in Hrows].
    + apply mapM_iter_raise in Hrows as [-> Hex]. split; [done |]. right. by exists subs.
  - cbn. destruct doc; try done; injection Hdoc as <-; (split; [done |]); left; intros [].
Qed.

(** ** The whole run *)




Lemma main_ok_run `{JSONDecoder} language keyboard path w layout doc vc text :
  files w !! layout_path language keyboard = Some layout →
  json_loads layout = Some doc → load_valid_chars doc = Ok vc →
  files w !! path = Some text →
  (∀ N, 4 ≤ N ≤ 8 → out_path language N ∉ denied w) →
  main language keyboard path w
  = (Ok (), apply_events (grow vc storage0 (readlines text) ≫= bucket_events language)
              (apply_events (Print <$> (readlines text ≫= diagnostic vc)) w)).
Proof.
  intros Hlayout Hdoc Hvc Hwords Hopen.
  rewrite main_run, Hlayout, Hwords. unfold main_outcome, decode_layout.
  rewrite Hdoc, Hvc. cbv zeta. rewrite writer_outcome_ok.
  - by rewrite apply_events_app.
  - intros k Hk. apply grow_storage0_keys in Hk.
    unfold denies. apply bool_decide_eq_false. by apply Hopen.
Qed.

Lemma bucket_in_grow vc lines N :
  4 ≤ N ≤ 8 → (N, spec_bucket vc N lines) ∈ grow vc storage0 lines.
Proof.
  intros HN. unfold grow. apply list_elem_of_fmap. exists (N, []). split; [done |].
  unfold storage0. rewrite !elem_of_cons, elem_of_nil. length_cases N; tauto.
Qed.

Lemma files_after_run language vc lines N w :
  4 ≤ N ≤ 8 →
  files (apply_events (grow vc storage0 lines ≫= bucket_events language) w)
    !! out_path language N
  = Some (json_dumps (spec_bucket vc N lines)).
Proof.
  intros HN. apply files_bucket_written.
  - intros k. apply grow_storage0_keys.
  - rewrite grow_keys. apply storage0_NoDup.
  - by apply bucket_in_grow.
Qed.





(** X15. The program end to end.  With a layout file that decodes and
    flattens to [vc], a readable word list and five output files that can
    be opened, the run completes; the file of each length N from 4 to 8
    then holds the JSON array of the trimmed lines of the word list of
    length N with valid characters and more than floor(N/2) distinct ones,
    in input order; and the console shows the diagnostics in input order
    followed by the five summary lines with the sizes of the buckets. *)
Theorem main_end_to_end `{JSONDecoder} (language keyboard path layout text : str)
    (doc : json) (vc : list json) (w : world) :
  files w !! layout_path language keyboard = Some layout →
  json_loads layout = Some doc → load_valid_chars doc = Ok vc →
  files w !! path = Some text →
  (∀ N, 4 ≤ N ≤ 8 → out_path language N ∉ denied w) →
  ∃ w', main language keyboard path w = (Ok (), w')
    ∧ (∀ N, 4 ≤ N ≤ 8 →
         files w' !! out_path language N
         = Some (json_dumps (spec_bucket vc N (readlines text))))
    ∧ console (trace w')
      = console (trace w) ++ (readlines text ≫= diagnostic vc)
        ++ ((λ N, summary (len (spec_bucket vc N (readlines text))) N) <$> [4; 5; 6; 7; 8]).
Proof.
  intros Hlayout Hdoc Hvc Hwords Hopen. eexists. split; [by eapply main_ok_run |].
  split.
  - intros N HN. by apply files_after_run.
  - rewrite !trace_apply_events, !console_app, console_prints, console_buckets.
    by rewrite <- app_assoc.
Qed.

Lemma main_end_to_end_witness :
  ∃ w', @main Sample.decoder (lit "en") (lit "qwerty") (lit "words.txt") Sample.w0 = (Ok (), w')
    ∧ (∀ N, 4 ≤ N ≤ 8 →
         files w' !! out_path (lit "en") N
         = Some (json_dumps (spec_bucket Sample.vc N (readlines Sample.words_text))))
    ∧ console (trace w')
      = console (trace Sample.w0) ++ (readlines Sample.words_text ≫= diagnostic Sample.vc)
        ++ ((λ N, summary (len (spec_bucket Sample.vc N (readlines Sample.words_text))) N)
              <$> [4; 5; 6; 7; 8]).
Proof.
  apply (@main_end_to_end Sample.decoder (lit "en") (lit "qwerty") (lit "words.txt")
           Sample.layout_text Sample.words_text Sample.layout Sample.vc Sample.w0).
  - vm_compute. reflexivity.
  - vm_compute. reflexivity.
  - vm_compute. reflexivity.
  - vm_compute. reflexivity.
  - intros N _. unfold Sample.w0. cbn [denied]. apply not_elem_of_empty.
Defined.



Lemma short_lines_bucket vc N lines :
  Forall (λ line, len (strip line) < 4 ∨ 8 < len (strip line)) lines →
  4 ≤ N ≤ 8 → spec_bucket vc N lines = [].
Proof.
  intros Hshort HN. induction Hshort as [|line lines Hline _ IH]; [done |].
  rewrite spec_bucket_cons, IH, decide_False; [done |]. intros [Hlen _]. lia.
Qed.

Lemma short_lines_quiet vc lines :
  Forall (λ line, len (strip line) < 4 ∨ 8 < len (strip line)) lines →
  lines ≫= diagnostic vc = [].
Proof.
  induction 1 as [|line lines Hline _ IH]; [done |].
  cbn [mbind list_bind]. rewrite IH. unfold diagnostic. cbv zeta.
  by rewrite decide_True.
Qed.

(** X17. A word list without a line of admissible length, the empty file
    among them, gives five files that each hold the empty JSON array, and a
    console with the five summary lines for 0 words and no diagnostic. *)
Theorem short_lines_give_empty_files `{JSONDecoder} (language keyboard path layout text : str)
    (doc : json) (vc : list json) (w : world) :
  files w !! layout_path language keyboard = Some layout →
  json_loads layout = Some doc → load_valid_chars doc = Ok vc →
  files w !! path = Some text →
  (∀ N, 4 ≤ N ≤ 8 → out_path language N ∉ denied w) →
  Forall (λ line, len (strip line) < 4 ∨ 8 < len (strip line)) (readlines text) →
  ∃ w', main language keyboard path w = (Ok (), w')
    ∧ (∀ N, 4 ≤ N ≤ 8 → files w' !! out_path language N = Some (lit "[]"))
    ∧ console (trace w')
      = console (trace w)
        ++ [lit "Writing 0 words of length 4."; lit "Writing 0 words of length 5.";
            lit "Writing 0 words of length 6."; lit "Writing 0 words of length 7.";
            lit "Writing 0 words of length 8."].
Proof.
  intros Hlayout Hdoc Hvc Hwords Hopen Hshort.
  pose proof (λ N, short_lines_bucket vc N _ Hshort) as Hempty.
  pose proof (short_lines_quiet vc _ Hshort) as Hquiet.
  eexists. split; [by eapply main_ok_run |]. split.
  - intros N HN. by rewrite files_after_run, Hempty by done.
  - rewrite !trace_apply_events, !console_app, console_prints, console_buckets, Hquiet.
    cbn [grow storage0 fmap list_fmap fst snd app].
    rewrite !Hempty by lia. rewrite app_nil_r. f_equal.
Qed.

Lemma short_lines_give_empty_files_witness :
  ∃ w', @main Sample.decoder (lit "en") (lit "qwerty") (lit "empty.txt")
          (World (<[lit "empty.txt" := []]> (files Sample.w0)) ∅ []) = (Ok (), w')
    ∧ (∀ N, 4 ≤ N ≤ 8 → files w' !! out_path (lit "en") N = Some (lit "[]"))
    ∧ console (trace w')
      = []
        ++ [lit "Writing 0 words of length 4."; lit "Writing 0 words of length 5.";
            lit "Writing 0 words of length 6."; lit "Writing 0 words of length 7.";
            lit "Writing 0 words of length 8."].
Proof.
  apply (@short_lines_give_empty_files Sample.decoder (lit "en") (lit "qwerty")
           (lit "empty.txt") Sample.layout_text [] Sample.layout Sample.vc
           (World (<[lit "empty.txt" := []]> (files Sample.w0)) ∅ [])).
  - vm_compute. reflexivity.
  - vm_compute. reflexivity.
  - vm_compute. reflexivity.
  - vm_compute. reflexivity.
  - intros N _. cbn [denied]. apply not_elem_of_empty.
  - constructor.
Defined.

(** ** The text of the output files *)

Ltac closed_printable :=
  repeat constructor; unfold printable; apply (bool_decide_unpack _); vm_compute; exact I.

Lemma hexdigit_printable d : (d < 16)%N → printable (hexdigit d).
Proof. intros Hd. unfold hexdigit, printable. destruct (N.ltb_spec d 10); lia. Qed.

Lemma hex4_printable n : Forall printable (hex4 n).
Proof.
  unfold hex4. repeat constructor; apply hexdigit_printable; by apply N.mod_lt.
Qed.

Lemma json_escape_char_printable c : Forall printable (json_escape_char c).
Proof.
  unfold json_escape_char.
  repeat (destruct (_ =? _)%N; [closed_printable |]).
  destruct (_ && _) eqn:Hrange.
  { apply andb_true_iff in Hrange as [?%N.leb_le ?%N.leb_le].
    repeat constructor; unfold printable; lia. }
  destruct (_ <? _)%N; rewrite !Forall_app; split_and!;
    first [apply hex4_printable | closed_printable].
Qed.

Lemma json_encode_str_printable s : Forall printable (json_encode_str s).
Proof.
  unfold json_encode_str. rewrite !Forall_app. split_and!.
  - closed_printable.
  - apply Forall_concat, Forall_fmap, Forall_forall. intros c _.
    apply json_escape_char_printable.
  - closed_printable.
Qed.

Lemma join_printable sep parts :
  Forall printable sep → Forall (Forall printable) parts → Forall printable (join sep parts).
Proof.
  intros Hsep. induction 1 as [|p parts Hp Hparts IH]; [constructor |].
  cbn [join]. destruct parts as [|q parts]; [done |].
  rewrite !Forall_app. done.
Qed.

(** X18. Whatever the words are, the text written to an output file is
    made of printable ASCII characters only (code points 32 to 126): every
    other character of a word is written as an escape, so the file has a
    single line and reads the same in any encoding that extends ASCII. *)
Theorem output_is_printable_ascii (words : list str) :
  Forall (λ c, (32 ≤ c ≤ 126)%N) (json_dumps words).
Proof.
  change (Forall printable (json_dumps words)).
  unfold json_dumps. rewrite !Forall_app. split_and!.
  - closed_printable.
  - apply join_printable.
    + closed_printable.
    + apply Forall_fmap, Forall_forall. intros s _. apply json_encode_str_printable.
  - closed_printable.
Qed.

(** ** The end of the word list *)

Lemma universal_newlines_snoc_CR_LF s :
  universal_newlines (s ++ [CR; LF]) = universal_newlines (s ++ [CR]).
Proof.
  induction s as [s IH] using (induction_ltof1 _ (@length N)). unfold ltof in IH.
  destruct s as [|c rest]; [done |].
  cbn [app universal_newlines]. destruct (c =? CR)%N.
  - f_equal. destruct rest as [|c' rest']; [done |].
    cbn [app]. destruct (c' =? LF)%N.
    + apply IH. cbn. lia.
    + apply (IH (c' :: rest')). cbn. lia.
  - f_equal. apply IH. cbn. lia.
Qed.

Lemma universal_newlines_snoc_LF s :
  last s ≠ Some CR → universal_newlines (s ++ [LF]) = universal_newlines s ++ [LF].
Proof.
  induction s as [s IH] using (induction_ltof1 _ (@length N)). unfold ltof in IH.
  intros Hlast. destruct s as [|c rest]; [done |].
  assert (last rest ≠ Some CR) as Hrest.
  { destruct rest as [|c' rest']; [done |]. by rewrite last_cons_cons in Hlast. }
  cbn [app universal_newlines]. destruct (N.eqb_spec c CR) as [->|Hc].
  - destruct rest as [|c' rest']; [done |].
    cbn [app]. f_equal. destruct (c' =? LF)%N.
    + apply IH; [cbn; lia |].
      destruct rest' as [|c'' rest'']; [done |]. by rewrite last_cons_cons in Hrest.
    + apply (IH (c' :: rest')); [cbn; lia | done].
  - cbn [app]. f_equal. apply IH; [cbn; lia | done].
Qed.

Lemma split_lines_snoc_LF u :
  split_lines (u ++ [LF]) = split_lines u ++ [[LF]]
  ∨ ∃ init l, split_lines u = init ++ [l] ∧ split_lines (u ++ [LF]) = init ++ [l ++ [LF]].
Proof.
  induction u as [|c rest IH]; [by left |].
  cbn [app split_lines]. destruct (c =? LF)%N.
  - destruct IH as [->|(init & l & -> & ->)]; [by left |].
    right. by exists ([c] :: init), l.
  - destruct IH as [->|(init & l & -> & ->)].
    + destruct (split_lines rest) as [|l ls]; [|by left].
      right. by exists [], [c].
    + right. destruct init as [|i init]; [by exists [], (c :: l) |].
      by exists ((c :: i) :: init), l.
Qed.

Lemma lstrip_nil_iff s : lstrip s = [] ↔ Forall (λ c, isspace c = true) s.
Proof.
  split; [|apply lstrip_all_space].
  induction s as [|c s IH]; cbn [lstrip]; [constructor |].
  destruct (isspace c) eqn:Hc; [|done]. intros Hs. constructor; [done | by apply IH].
Qed.

Lemma lstrip_app s r : lstrip s ≠ [] → lstrip (s ++ r) = lstrip s ++ r.
Proof.
  induction s as [|c s IH]; cbn [lstrip app]; [done |].
  destruct (isspace c); [apply IH | done].
Qed.

Lemma strip_snoc_space s c : isspace c = true → strip (s ++ [c]) = strip s.
Proof.
  intros Hc. unfold strip. destruct (lstrip s) as [|a t] eqn:Hs.
  - apply lstrip_nil_iff in Hs. rewrite lstrip_all_space; [done |].
    apply Forall_app. split; [done | by constructor].
  - rewrite lstrip_app by (by rewrite Hs). rewrite Hs.
    unfold rstrip. rewrite rev_app_distr. cbn [rev app lstrip]. by rewrite Hc.
Qed.

Lemma scan_closed_form_strip vc lines1 lines2 :
  strip <$> lines1 = strip <$> lines2 →
  grow vc storage0 lines1 = grow vc storage0 lines2
  ∧ lines1 ≫= diagnostic vc = lines2 ≫= diagnostic vc.
Proof.
  intros Heq. split; [|by apply diagnostics_strip].
  unfold grow, spec_bucket. by rewrite Heq.
Qed.

Lemma scan_closed_form_blank vc lines :
  grow vc storage0 (lines ++ [[LF]]) = grow vc storage0 lines
  ∧ (lines ++ [[LF]]) ≫= diagnostic vc = lines ≫= diagnostic vc.
Proof.
  split.
  - unfold grow. apply list_fmap_ext. intros i [k v] Hin. cbn [fst snd]. f_equal. f_equal.
    rewrite spec_bucket_app. rewrite <- (app_nil_r (spec_bucket vc k lines)) at 2. f_equal.
    rewrite spec_bucket_one. apply decide_False.
    apply list_elem_of_lookup_2 in Hin.
    unfold storage0 in Hin. rewrite !elem_of_cons, elem_of_nil in Hin.
    intros [Hlen _]. change (len (strip [LF])) with 0 in Hlen.
    destruct Hin as [[= Hk _]|[[= Hk _]|[[= Hk _]|[[= Hk _]|[[= Hk _]|[]]]]]]; lia.
  - rewrite bind_app. cbn. by rewrite app_nil_r.
Qed.

Lemma scan_result_eq vc (d1 d2 : dict) (m1 m2 : list str) w :
  d1 = d2 → m1 = m2 →
  (Ok (Locals d1 vc), apply_events (Print <$> m1) w)
  = (Ok (Locals d2 vc), apply_events (Print <$> m2) w).
Proof. by intros -> ->. Qed.

(** X19. A line feed at the end of the word list is immaterial: the scan
    of a text followed by one more line feed gives the same buckets and
    the same console output as the scan of the text itself, whether the
    text is empty, ends in a line feed or a carriage return already, or
    ends in the middle of a line. *)
Theorem final_newline_is_immaterial (vc : list json) (text : str) (w : world) :
  for_each (readlines (text ++ [LF])) scan_line (Locals storage0 vc) w
  = for_each (readlines text) scan_line (Locals storage0 vc) w.
Proof.
  rewrite !scan_lines_run by done. unfold readlines.
  destruct (decide (last text = Some CR)) as [Hcr|Hcr].
  { apply last_Some in Hcr as [s ->].
    by rewrite <- app_assoc, universal_newlines_snoc_CR_LF. }
  rewrite universal_newlines_snoc_LF by done.
  destruct (split_lines_snoc_LF (universal_newlines text)) as [->|(init & l & Hu & ->)].
  - apply scan_result_eq; apply scan_closed_form_blank.
  - rewrite Hu. apply scan_result_eq; apply scan_closed_form_strip;
      rewrite !fmap_app; cbn [fmap list_fmap]; by rewrite strip_snoc_space.
Qed.
